(** * just-hangry: the dish-name extractor and the recipe resolver

    A shallow embedding of [extract_dish_name], [clean_dish_name],
    [search_recipe_smart] and [get_order_links] from [app/main.py] and
    [app/cloud_app.py].

    A Python [str] is a list of Unicode code points ([list N]).  The parts of
    Python's Unicode database the code touches are the whitespace set (used by
    [\s], [str.split()] and [str.strip()], written out in full below), and the
    alphanumeric table ([\w] is alphanumeric or underscore) and the lowercase
    mapping, which are too large to write out: they are the fields of the class
    [UnicodeDB], and every result below holds for every instance of it. *)

From Stdlib Require Import Ascii String.
From Stdlib Require Import List NArith ZArith Lia Bool.
From Stdlib Require Import Sorting.Permutation Sorting.Sorted.
Import ListNotations.
Open Scope string_scope.
Open Scope list_scope.
Open Scope N_scope.

Module Py.

Definition pystr := list N.

(** String literals: an ASCII Rocq string read as code points. *)
Definition lit (s : string) : pystr :=
  map (fun a => N_of_ascii a) (list_ascii_of_string s).

(** [Py_UNICODE_ISSPACE]: the characters matched by [\s] and used by
    [str.split()] and [str.strip()]. *)
Definition is_space (c : N) : bool :=
  ((9 <=? c) && (c <=? 13)) || ((28 <=? c) && (c <=? 32)) ||
  (c =? 133) || (c =? 160) || (c =? 5760) ||
  ((8192 <=? c) && (c <=? 8202)) || (c =? 8232) || (c =? 8233) ||
  (c =? 8239) || (c =? 8287) || (c =? 12288).

Class UnicodeDB := {
  isalnum : N -> bool;          (** [str.isalnum] on one character *)
  lower_char : N -> list N      (** [str.lower] on one character *)
}.

Section prims.
Context {U : UnicodeDB}.

(** [str.lower], character by character (the final-sigma rule of
    [str.lower] for U+03A3 is left out). *)
Definition py_lower (s : pystr) : pystr := flat_map lower_char s.

(** [\w] of a [str] pattern *)
Definition is_word (c : N) : bool := isalnum c || (c =? 95).

(** The characters kept by [re.sub(r'[^\w\s\'-]', '', s)]. *)
Definition keep (c : N) : bool := is_word c || is_space c || (c =? 39) || (c =? 45).

Definition sub_nonkeep (s : pystr) : pystr := filter keep s.

End prims.

Fixpoint prefixb (p s : pystr) : bool :=
  match p, s with
  | [], _ => true
  | _ :: _, [] => false
  | x :: p', y :: s' => (x =? y) && prefixb p' s'
  end.

(** [sub in s] *)
Fixpoint py_in (sub s : pystr) : bool :=
  prefixb sub s || match s with [] => false | _ :: s' => py_in sub s' end.

(** [s.split(sep)] for a one-character separator set: keeps empty pieces. *)
Fixpoint split_on (p : N -> bool) (s : pystr) : list pystr :=
  match s with
  | [] => [[]]
  | c :: s' =>
      let segs := split_on p s' in
      if p c then [] :: segs
      else match segs with
           | seg :: rest => (c :: seg) :: rest
           | [] => [[c]]
           end
  end.

(** [s.split()]: split on runs of whitespace, no empty pieces. *)
Definition py_split (s : pystr) : list pystr :=
  filter (fun w => negb (match w with [] => true | _ => false end))
         (split_on is_space s).

(** [sep.join(ws)] *)
Fixpoint py_join (sep : pystr) (ws : list pystr) : pystr :=
  match ws with
  | [] => []
  | [w] => w
  | w :: ws' => w ++ sep ++ py_join sep ws'
  end.

Fixpoint drop_while (p : N -> bool) (s : pystr) : pystr :=
  match s with
  | c :: s' => if p c then drop_while p s' else s
  | [] => []
  end.

(** [s.strip(chars)] *)
Definition strip_by (p : N -> bool) (s : pystr) : pystr :=
  rev (drop_while p (rev (drop_while p s))).

(** [s.strip()] *)
Definition py_strip (s : pystr) : pystr := strip_by is_space s.

(** [re.sub(r'\s+', ' ', s)]: every maximal run of whitespace becomes one
    space; [in_run] records that the previous character was whitespace. *)
Fixpoint collapse_go (in_run : bool) (s : pystr) : pystr :=
  match s with
  | [] => []
  | c :: s' =>
      if is_space c then
        if in_run then collapse_go true s' else 32 :: collapse_go true s'
      else c :: collapse_go false s'
  end.

Definition collapse_ws (s : pystr) : pystr := collapse_go false s.

(** [s.replace(old, new)] for a nonempty [old]: left to right, without
    overlaps; [skip] counts the characters of a match still to be passed. *)
Fixpoint replace_go (old new : pystr) (skip : nat) (s : pystr) : pystr :=
  match s with
  | [] => []
  | c :: s' =>
      match skip with
      | S k => replace_go old new k s'
      | O => if prefixb old s
             then new ++ replace_go old new (pred (length old)) s'
             else c :: replace_go old new O s'
      end
  end.

Definition py_replace (old new s : pystr) : pystr := replace_go old new O s.

(** [s.split(sep)[0]] for a nonempty [sep]: the text before the first
    occurrence. *)
Fixpoint before (sep s : pystr) : pystr :=
  if prefixb sep s then []
  else match s with
       | [] => []
       | c :: s' => c :: before sep s'
       end.

Fixpoint str_eqb (a b : pystr) : bool :=
  match a, b with
  | [], [] => true
  | x :: a', y :: b' => (x =? y) && str_eqb a' b'
  | _, _ => false
  end.

Definition is_empty (s : pystr) : bool :=
  match s with [] => true | _ => false end.

(** ** The three regexes of [extract_dish_name]

    [LABEL:\s*(.+?)(?:\s*STOP1:|\s*STOP2:|\n|$)] under [re.search], no flags:
    [.] matches anything but a newline, [$] matches at the end or before a
    final newline.  The functions below follow the backtracking order of the
    matcher: the leftmost start, then the longest [\s*], then the shortest
    [.+?]. *)

(** [\s*(STOP1:|STOP2:)] matches at the start of [s]. *)
Fixpoint ws_prefixed (stops : list pystr) (s : pystr) : bool :=
  existsb (fun l => prefixb l s) stops ||
  match s with
  | c :: s' => is_space c && ws_prefixed stops s'
  | [] => false
  end.

Definition dollar (s : pystr) : bool :=
  match s with [] => true | [c] => c =? 10 | _ => false end.

(** The alternation [(?:\s*STOP1:|\s*STOP2:|\n|$)] matches at [s]. *)
Definition term_at (stops : list pystr) (s : pystr) : bool :=
  ws_prefixed stops s ||
  match s with c :: _ => c =? 10 | [] => false end ||
  dollar s.

(** [.+?] after its first character: the shortest extension after which the
    alternation matches. *)
Fixpoint lazy_go (stops : list pystr) (s : pystr) : option pystr :=
  if term_at stops s then Some []
  else match s with
       | [] => None
       | c :: s' => if c =? 10 then None else option_map (cons c) (lazy_go stops s')
       end.

Definition lazy_plus (stops : list pystr) (s : pystr) : option pystr :=
  match s with
  | [] => None
  | c :: s' => if c =? 10 then None else option_map (cons c) (lazy_go stops s')
  end.

(** [\s*] then the group: the longest run of whitespace first. *)
Fixpoint greedy_ws (stops : list pystr) (s : pystr) : option pystr :=
  match s with
  | c :: s' =>
      if is_space c then
        match greedy_ws stops s' with
        | Some g => Some g
        | None => lazy_plus stops s
        end
      else lazy_plus stops s
  | [] => lazy_plus stops s
  end.

(** [re.search(...)] returning [group(1)], or [None] when there is no match. *)
Fixpoint re_search_field (label : pystr) (stops : list pystr) (s : pystr) : option pystr :=
  match (if prefixb label s then greedy_ws stops (skipn (length label) s) else None) with
  | Some g => Some g
  | None => match s with
            | [] => None
            | _ :: s' => re_search_field label stops s'
            end
  end.

(** ** [urllib.parse.quote(s)] with [safe='/'] *)

(** [str.encode('utf-8')] of one code point; [None] for a surrogate, where
    the strict error handler raises [UnicodeEncodeError]. *)
Definition utf8_encode (c : N) : option (list N) :=
  if c <? 128 then Some [c]
  else if c <? 2048 then Some [192 + c / 64; 128 + c mod 64]
  else if c <? 65536 then
    if (55296 <=? c) && (c <=? 57343) then None
    else Some [224 + c / 4096; 128 + (c / 64) mod 64; 128 + c mod 64]
  else if c <? 1114112 then
    Some [240 + c / 262144; 128 + (c / 4096) mod 64; 128 + (c / 64) mod 64; 128 + c mod 64]
  else None.

Fixpoint utf8_encode_all (s : pystr) : option (list N) :=
  match s with
  | [] => Some []
  | c :: s' =>
      match utf8_encode c, utf8_encode_all s' with
      | Some b, Some bs => Some (b ++ bs)
      | _, _ => None
      end
  end.

(** [_ALWAYS_SAFE]: ASCII letters, digits and [_.-~]. *)
Definition always_safe (b : N) : bool :=
  ((48 <=? b) && (b <=? 57)) || ((65 <=? b) && (b <=? 90)) ||
  ((97 <=? b) && (b <=? 122)) || (b =? 95) || (b =? 46) || (b =? 45) || (b =? 126).

Definition hex_digit (n : N) : N := if n <? 10 then 48 + n else 55 + n.

(** One byte: kept if safe ([safe='/']), else ['%%%02X']. *)
Definition quote_byte (b : N) : pystr :=
  if always_safe b || (b =? 47) then [b] else [37; hex_digit (b / 16); hex_digit (b mod 16)].

(** [None] stands for the [UnicodeEncodeError] raised by the encoding. *)
Definition quote (s : pystr) : option pystr :=
  match s with
  | [] => Some []
  | _ => option_map (flat_map quote_byte) (utf8_encode_all s)
  end.

(** ** Python values

    The values [response.json()] gives: a float is a finite double, given
    by its value [num / den]. *)
Inductive json :=
| JNull
| JBool (b : bool)
| JInt (z : Z)
| JFloat (num : Z) (den : positive)
| JStr (s : pystr)
| JArr (l : list json)
| JObj (kvs : list (pystr * json)).

(** [bool(v)] *)
Definition truthy (v : json) : bool :=
  match v with
  | JNull => false
  | JBool b => b
  | JInt z => negb (Z.eqb z 0)
  | JFloat n _ => negb (Z.eqb n 0)
  | JStr s => negb (is_empty s)
  | JArr l => match l with [] => false | _ => true end
  | JObj kvs => match kvs with [] => false | _ => true end
  end.

(** [d[k]] of a dict read by [json.loads]: a repeated key keeps its last value. *)
Fixpoint obj_get (kvs : list (pystr * json)) (k : pystr) : option json :=
  match kvs with
  | [] => None
  | (k', v) :: kvs' =>
      match obj_get kvs' k with
      | Some w => Some w
      | None => if str_eqb k' k then Some v else None
      end
  end.

(** Fallible code: [None] is an exception raised. *)
Definition obind {A B} (m : option A) (f : A -> option B) : option B :=
  match m with Some a => f a | None => None end.
Notation "'let?' x ':=' m 'in' f" := (obind m (fun x => f))
  (at level 200, x name, m at level 100, f at level 200).

(** [[f(x) for x in xs]] with a fallible [f] *)
Fixpoint map_err {A B} (f : A -> option B) (xs : list A) : option (list B) :=
  match xs with
  | [] => Some []
  | x :: xs' => let? y := f x in let? ys := map_err f xs' in Some (y :: ys)
  end.

(** [v.get(k, d)]: [AttributeError] unless [v] is a dict. *)
Definition py_get (v : json) (k : pystr) (d : json) : option json :=
  match v with
  | JObj kvs => Some (match obj_get kvs k with Some w => w | None => d end)
  | _ => None
  end.

(** [v.strip()]: [AttributeError] unless [v] is a [str]. *)
Definition json_strip (v : json) : option pystr :=
  match v with JStr s => Some (py_strip s) | _ => None end.

(** The [str] a value is, if it is one. *)
Definition json_str (v : json) : option pystr :=
  match v with JStr s => Some s | _ => None end.

(** [sep.join(vs)]: [TypeError] unless every item is a [str]. *)
Definition py_join_json (sep : pystr) (vs : list json) : option pystr :=
  let? ss := map_err json_str vs in Some (py_join sep ss).

(** [str(n)] of a natural number. *)
Fixpoint digits_go (fuel : nat) (n : N) (acc : pystr) : pystr :=
  match fuel with
  | O => acc
  | S f => if n <? 10 then (48 + n) :: acc else digits_go f (n / 10) ((48 + n mod 10) :: acc)
  end.

Definition str_of_N (n : N) : pystr := digits_go (S (N.size_nat n)) n [].

End Py.

Import Py.

Module MainApp.

Definition flair_words : list pystr := map lit [
  "seduction"; "romantic"; "passionate"; "cozy"; "spooky";
  "dreamy"; "magical"; "enchanted"; "ultimate"; "perfect";
  "date night"; "love"; "special"; "delicious"; "homemade";
  "gourmet"; "classic"; "authentic"; "traditional"; "famous";
  "epic"; "heavenly"; "divine"; "sinful"; "decadent";
  "lusty"; "fiery"; "sizzling"; "steamy"; "midnight";
  "moonlit"; "candlelit"; "sultry"; "sensual"; "forbidden";
  "irresistible"; "tempting"; "indulgent"; "luxurious"].

(** [x in xs] on a list of strings *)
Definition str_mem (x : pystr) (xs : list pystr) : bool :=
  existsb (str_eqb x) xs.

Section defs.
Context {U : UnicodeDB}.

(** The filter of [clean_dish_name]: [w.lower().strip() not in flair_words]. *)
Definition not_flair (w : pystr) : bool :=
  negb (str_mem (py_strip (py_lower w)) flair_words).

Definition clean_dish_name (dish_name : pystr) : pystr :=
  let dish_name := sub_nonkeep dish_name in
  let words := py_split dish_name in
  let cleaned_words := filter not_flair words in
  let dish_name := py_strip (py_join [32] cleaned_words) in
  py_strip (collapse_ws dish_name).

Record dishes := mk_dishes { main : pystr; drink : pystr; snack : pystr }.

Definition set_main (v : pystr) (d : dishes) := mk_dishes v (drink d) (snack d).
Definition set_drink (v : pystr) (d : dishes) := mk_dishes (main d) v (snack d).
Definition set_snack (v : pystr) (d : dishes) := mk_dishes (main d) (drink d) v.

Definition separators : list pystr :=
  [lit " - "; [32; 8211; 32]; lit ". "; lit ", a "; lit ", this "; lit ", an "].

(** [for sep in [...]: if sep in raw: raw = raw.split(sep)[0].strip(); break] *)
Fixpoint cut_at_separators (seps : list pystr) (raw : pystr) : pystr :=
  match seps with
  | [] => raw
  | sep :: rest => if py_in sep raw then py_strip (before sep raw)
                   else cut_at_separators rest raw
  end.

(** The block repeated in the three branches of the fallback loop:
    [raw = line.split(":")[-1].strip().strip("*").strip()], then the
    separator loop. *)
Definition markdown_value (line : pystr) : pystr :=
  let raw := py_strip (strip_by (fun c => c =? 42)
               (py_strip (last (split_on (fun c => c =? 58) line) []))) in
  cut_at_separators separators raw.

(** One iteration of [for line in response.split("\n")]. *)
Definition fallback_line (d : dishes) (line : pystr) : dishes :=
  let line := py_strip line in
  if py_in (lit "Main Dish") line && py_in (lit ":") line then
    set_main (markdown_value line) d
  else if py_in (lit "Drink") line && py_in (lit ":") line && is_empty (drink d) then
    set_drink (markdown_value line) d
  else if py_in (lit "Snack") line && py_in (lit ":") line && is_empty (snack d) then
    set_snack (markdown_value line) d
  else d.

(** The final loop: [if dishes[key]: re.sub(r'[^\w\s\'-]', '', ...).strip()],
    then [re.sub(r'\s+', ' ', ...).strip()]. *)
Definition clean_field (v : pystr) : pystr :=
  if is_empty v then v
  else py_strip (collapse_ws (py_strip (sub_nonkeep v))).

Definition extract_dish_name (response : pystr) : dishes :=
  let dishes0 := mk_dishes [] [] [] in
  let normalized := py_replace (lit "MAIN_DISH:") (lit "MAIN DISH:") response in
  let main_match := re_search_field (lit "MAIN DISH:") [lit "DRINK:"; lit "SNACK:"] normalized in
  let drink_match := re_search_field (lit "DRINK:") [lit "SNACK:"; lit "MAIN DISH:"] normalized in
  let snack_match := re_search_field (lit "SNACK:") [lit "MAIN DISH:"; lit "DRINK:"] normalized in
  let dishes1 := match main_match with Some g => set_main (py_strip g) dishes0 | None => dishes0 end in
  let dishes2 := match drink_match with Some g => set_drink (py_strip g) dishes1 | None => dishes1 end in
  let dishes3 := match snack_match with Some g => set_snack (py_strip g) dishes2 | None => dishes2 end in
  let dishes4 := if is_empty (main dishes3)
                 then fold_left fallback_line (split_on (fun c => c =? 10) response) dishes3
                 else dishes3 in
  mk_dishes (clean_field (main dishes4)) (clean_field (drink dishes4)) (clean_field (snack dishes4)).

(** ** The recipe resolver *)

(** The dict built by [search_recipe] from the first meal of the response. *)
Record recipe := mk_recipe {
  r_name : pystr; r_category : pystr; r_cuisine : pystr; r_instructions : pystr;
  r_image : pystr; r_video : pystr; r_ingredients : list pystr; r_source : pystr }.

(** The lookups: a computation returns its value and the queries it sent to
    [search_recipe], in order. *)
Definition Lk (A : Type) : Type := (A * list pystr)%type.
Definition lk_ret {A} (a : A) : Lk A := (a, []).
Definition lk_bind {A B} (m : Lk A) (f : A -> Lk B) : Lk B :=
  let (a, q1) := m in let (b, q2) := f a in (b, q1 ++ q2).
Notation "x <- m ;; f" := (lk_bind m (fun x => f))
  (at level 61, m at next level, right associativity).

(** [search_recipe] is the injected lookup: [None] is "no meals" and also
    every exception it catches. *)
Definition lookup (search_recipe : pystr -> option recipe) (q : pystr) : Lk (option recipe) :=
  (search_recipe q, [q]).

(** [while len(words) > 1: words.pop(0); ...search_recipe(" ".join(words))] *)
Fixpoint trim_loop (search_recipe : pystr -> option recipe) (words : list pystr)
  : Lk (option recipe) :=
  match words with
  | _ :: ((_ :: _) as rest) =>
      r <- lookup search_recipe (py_join [32] rest) ;;
      match r with
      | Some _ => lk_ret r
      | None => trim_loop search_recipe rest
      end
  | _ => lk_ret None
  end.

(** [for word in words: if len(word) > 3: ...search_recipe(word)] *)
Fixpoint word_loop (search_recipe : pystr -> option recipe) (words : list pystr)
  : Lk (option recipe) :=
  match words with
  | [] => lk_ret None
  | w :: ws =>
      if Nat.ltb 3 (length w) then
        r <- lookup search_recipe w ;;
        match r with
        | Some _ => lk_ret r
        | None => word_loop search_recipe ws
        end
      else word_loop search_recipe ws
  end.

(** [words.sort(key=len, reverse=True)]: stable, longest first. *)
Fixpoint insert_by_len (w : pystr) (l : list pystr) : list pystr :=
  match l with
  | [] => [w]
  | x :: l' => if Nat.ltb (length x) (length w) then w :: x :: l' else x :: insert_by_len w l'
  end.

Definition sort_by_len_desc (l : list pystr) : list pystr :=
  fold_left (fun acc w => insert_by_len w acc) l [].

Definition search_recipe_smart (search_recipe : pystr -> option recipe) (dish_name : pystr)
  : Lk (option recipe) :=
  let cleaned := clean_dish_name dish_name in
  r <- lookup search_recipe cleaned ;;
  match r with
  | Some _ => lk_ret r
  | None =>
      r <- trim_loop search_recipe (py_split cleaned) ;;
      match r with
      | Some _ => lk_ret r
      | None => word_loop search_recipe (sort_by_len_desc (py_split cleaned))
      end
  end.

(** ** Order links *)

Definition key_uber : pystr := [128994; 32] ++ lit "Uber Eats".
Definition key_lieferando : pystr := [128992; 32] ++ lit "Lieferando".
Definition key_just_eat : pystr := [128999; 32] ++ lit "Just Eat".

Definition url_uber : pystr := lit "https://www.ubereats.com/search?q=".
Definition url_lieferando : pystr := lit "https://www.lieferando.de/en/delivery/food/".
Definition url_just_eat : pystr := lit "https://www.just-eat.co.uk/search?q=".

(** The returned dict as its list of items; [None] when [quote] raises. *)
Definition get_order_links (dish_name : pystr) : option (list (pystr * pystr)) :=
  let cleaned_dish_name := clean_dish_name dish_name in
  match quote cleaned_dish_name with
  | None => None
  | Some encoded =>
      Some [(key_uber, url_uber ++ encoded);
            (key_lieferando, url_lieferando ++ encoded);
            (key_just_eat, url_just_eat ++ encoded)]
  end.

End defs.

(** ** YouTube link *)

Definition url_youtube : pystr := lit "https://www.youtube.com/results?search_query=".

(** [get_youtube_link]: [None] when [quote] raises. *)
Definition get_youtube_link (dish_name : pystr) : option pystr :=
  match quote (dish_name ++ lit " recipe") with
  | None => None
  | Some encoded => Some (url_youtube ++ encoded)
  end.

(** ** Recipes *)

(** The dict [search_recipe] returns. *)
Record recipe_dict := mk_recipe_dict {
  rd_name : json; rd_category : json; rd_cuisine : json; rd_instructions : json;
  rd_image : json; rd_video : json; rd_ingredients : list pystr; rd_source : json }.

Definition ingredient_key (i : N) : pystr := lit "strIngredient" ++ str_of_N i.
Definition measure_key (i : N) : pystr := lit "strMeasure" ++ str_of_N i.

(** One pass of [for i in range(1, 21)]. *)
Definition ingredient_step (meal : json) (ingredients : list pystr) (i : N)
  : option (list pystr) :=
  let? ingredient := py_get meal (ingredient_key i) (JStr []) in
  let? measure := py_get meal (measure_key i) (JStr []) in
  if truthy ingredient then
    let? g := json_strip ingredient in
    if is_empty g then Some ingredients
    else
      let? m := json_strip measure in
      let? g' := json_strip ingredient in
      Some (ingredients ++ [m ++ [32] ++ g'])
  else Some ingredients.

Definition ingredient_indices : list N := map N.of_nat (seq 1 20).

Definition ingredients_of (meal : json) : option (list pystr) :=
  fold_left (fun acc i => let? l := acc in ingredient_step meal l i) ingredient_indices (Some []).

(** [meals[0]] *)
Definition py_index0 (v : json) : option json :=
  match v with
  | JArr (x :: _) => Some x
  | JStr (c :: _) => Some (JStr [c])
  | _ => None
  end.

(** [search_recipe]: [api dish_name] is [response.json()] of the TheMealDB
    request, [None] when the request or the decoding raises; every
    exception ends in [return None]. *)
Definition search_recipe (api : pystr -> option json) (dish_name : pystr) : option recipe_dict :=
  let? data := api dish_name in
  let? meals := py_get data (lit "meals") JNull in
  if negb (truthy meals) then None
  else
    let? meal := py_index0 meals in
    let? ingredients := ingredients_of meal in
    let? name := py_get meal (lit "strMeal") (JStr (lit "Unknown")) in
    let? category := py_get meal (lit "strCategory") (JStr []) in
    let? cuisine := py_get meal (lit "strArea") (JStr []) in
    let? instructions := py_get meal (lit "strInstructions") (JStr []) in
    let? image := py_get meal (lit "strMealThumb") (JStr []) in
    let? video := py_get meal (lit "strYoutube") (JStr []) in
    let? source := py_get meal (lit "strSource") (JStr []) in
    Some (mk_recipe_dict name category cuisine instructions image video ingredients source).

(** ** Genres *)

(** [genre_map.get(k, default)]: [genre_map] is the dict [get_tmdb_genres]
    returned, from [str] keys to the ["name"] values of the response as
    they come, [str] or not. *)
Definition dict_get (genre_map : pystr -> option json) (k : pystr) (d : json) : json :=
  match genre_map k with Some v => v | None => d end.

(** [resolve_genres]: [None] is the [TypeError] of [", ".join] on a
    non-[str] name. *)
Definition resolve_genres (genre_map : pystr -> option json) (genre_id_string : pystr)
  : option pystr :=
  if is_empty genre_id_string || str_eqb genre_id_string (lit "Unknown") then Some (lit "Unknown")
  else
    let ids := map py_strip (split_on (fun c => c =? 44) genre_id_string) in
    let names := map (fun gid => dict_get genre_map gid (JStr gid)) ids in
    py_join_json (lit ", ") names.

(** ** Movies *)

(** A movie dict of [search_tmdb], [search_local] and [hybrid_search].
    [m_poster] is [None] for Python's [None] and [Some v] for the string
    [f"{TMDB_IMAGE_URL}{v}"]. *)
Record movie := mk_movie {
  m_title : json; m_year : json; m_genre : json; m_overview : json;
  m_rating : json; m_poster : option json; m_source : pystr }.

Definition tmdb_source : pystr := lit "TMDB " ++ [127760].

(** The keys of a dict, in insertion order. *)
Fixpoint dict_keys_go (seen : list pystr) (kvs : list (pystr * json)) : list pystr :=
  match kvs with
  | [] => []
  | (k, _) :: kvs' =>
      if str_mem k seen then dict_keys_go seen kvs' else k :: dict_keys_go (k :: seen) kvs'
  end.

(** [for x in v]: the items of a list, the characters of a [str], the keys
    of a dict; [TypeError] for the other values. *)
Definition py_iter (v : json) : option (list json) :=
  match v with
  | JArr l => Some l
  | JStr s => Some (map (fun c => JStr [c]) s)
  | JObj kvs => Some (map JStr (dict_keys_go [] kvs))
  | _ => None
  end.

(** [v[:4]] *)
Definition slice4 (v : json) : option json :=
  match v with
  | JStr s => Some (JStr (firstn 4 s))
  | JArr l => Some (JArr (firstn 4 l))
  | _ => None
  end.

(** [v != s] for a [str] [s] *)
Definition json_ne_str (v : json) (s : pystr) : bool :=
  match v with JStr t => negb (str_eqb t s) | _ => true end.

(** What one pass of the loop of [search_tmdb] does with an item. *)
Inductive item_out := Skip | Keep (m : movie).

Section movies.
Context (genre_map : pystr -> option json).
(** [int(s)] on a [str]: [None] is the [ValueError]. *)
Context (py_int : pystr -> option Z).

(** [genre_map.get(gid, "Unknown")] in [app/main.py], on the [str]-keyed
    dict: a list or dict [gid] is unhashable, any other non-[str] is no key. *)
Definition genre_lookup (gid : json) : option json :=
  match gid with
  | JStr k => Some (dict_get genre_map k (JStr (lit "Unknown")))
  | JArr _ | JObj _ => None
  | _ => Some (JStr (lit "Unknown"))
  end.

(** The body of [for item in data.get("results", [])] in [search_tmdb] of
    [app/main.py]. *)
Definition tmdb_item (year_min year_max : Z) (filter_year : bool) (item : json)
  : option item_out :=
  let? rd := py_get item (lit "release_date") JNull in
  let? year_str :=
    (if truthy rd then let? r := py_get item (lit "release_date") (JStr []) in slice4 r
     else Some (JStr (lit "Unknown"))) in
  let? skip :=
    (if filter_year && json_ne_str year_str (lit "Unknown") then
       match year_str with
       | JStr ys =>
           match py_int ys with
           | Some year_int => Some ((year_int <? year_min) || (year_max <? year_int))%Z
           | None => Some false
           end
       | _ => None
       end
     else Some false) in
  if skip then Some Skip
  else
    let? gids := py_get item (lit "genre_ids") (JArr []) in
    let? gl := py_iter gids in
    let? names := map_err genre_lookup gl in
    let? genre_names := py_join_json (lit ", ") names in
    let? pp := py_get item (lit "poster_path") JNull in
    let poster := if truthy pp then Some pp else None in
    let? title := py_get item (lit "title") (JStr (lit "Unknown")) in
    let? overview := py_get item (lit "overview") (JStr (lit "No description available")) in
    let? rating := py_get item (lit "vote_average") (JStr (lit "N/A")) in
    Some (Keep (mk_movie title year_str (JStr genre_names) overview rating poster tmdb_source)).

Fixpoint tmdb_loop (n_results year_min year_max : Z) (filter_year : bool)
    (items : list json) (movies : list movie) : option (list movie) :=
  match items with
  | [] => Some movies
  | item :: items' =>
      let? o := tmdb_item year_min year_max filter_year item in
      match o with
      | Skip => tmdb_loop n_results year_min year_max filter_year items' movies
      | Keep m =>
          let movies' := movies ++ [m] in
          if (n_results <=? Z.of_nat (length movies'))%Z then Some movies'
          else tmdb_loop n_results year_min year_max filter_year items' movies'
      end
  end.

(** [search_tmdb] of [app/main.py]: [api query] is [response.json()] of the
    request built from [query], [None] when the request, [raise_for_status]
    or the decoding raises; every exception ends in [return []]. *)
Definition search_tmdb (api : pystr -> option json) (query : pystr)
    (n_results year_min year_max : Z) (filter_year : bool) : list movie :=
  match (let? data := api query in
         let? results := py_get data (lit "results") (JArr []) in
         let? items := py_iter results in
         tmdb_loop n_results year_min year_max filter_year items []) with
  | Some movies => movies
  | None => []
  end.

(** ** Hybrid search *)

Definition src_tmdb : pystr := lit "TMDB API " ++ [127760].
Definition src_local : pystr := lit "Local DB " ++ [128190].
Definition src_both : pystr := lit "Both".

(** [m['genre'] = resolve_genres(m['genre'])]: [resolve_genres] raises on
    a non-[str] name of [genre_map]; on a non-[str] argument it returns ["Unknown"] when it is falsy and raises at [s.split]
    otherwise. *)
Definition resolve_genre_field (m : movie) : option movie :=
  let? g :=
    (match m_genre m with
     | JStr s => let? r := resolve_genres genre_map s in Some (JStr r)
     | v => if truthy v then None else Some (JStr (lit "Unknown"))
     end) in
  Some (mk_movie (m_title m) (m_year m) g (m_overview m) (m_rating m) (m_poster m) (m_source m)).

Context {U : UnicodeDB}.

(** The loop on [seen] of [hybrid_search]: [m['title'].lower()] raises
    unless the title is a [str]. *)
Fixpoint dedup_titles (seen : list pystr) (movies : list movie) : option (list movie) :=
  match movies with
  | [] => Some []
  | m :: movies' =>
      match m_title m with
      | JStr t =>
          let title_lower := py_lower t in
          if str_mem title_lower seen then dedup_titles seen movies'
          else let? u := dedup_titles (title_lower :: seen) movies' in Some (m :: u)
      | _ => None
      end
  end.

(** [l[:n]] *)
Definition py_take {A} (l : list A) (n : Z) : list A :=
  if (0 <=? n)%Z then firstn (Z.to_nat n) l
  else firstn (length l - Z.to_nat (- n)) l.

(** [hybrid_search]: [search_local query n year_min year_max filter_year] is
    the list [search_local] returns, [None] when it raises (it has no
    exception handler, nor has [hybrid_search]). *)
Definition hybrid_search (api : pystr -> option json)
    (search_local : pystr -> Z -> Z -> Z -> bool -> option (list movie))
    (query : pystr) (n_results : Z) (source : pystr) (year_min year_max : Z)
    (filter_year : bool) : option (list movie) :=
  let? tmdb_results :=
    (if str_mem source [src_tmdb; src_both] then
       map_err resolve_genre_field (search_tmdb api query n_results year_min year_max filter_year)
     else Some []) in
  let? local_results :=
    (if str_mem source [src_local; src_both] then
       search_local query n_results year_min year_max filter_year
     else Some []) in
  let? unique := dedup_titles [] (tmdb_results ++ local_results) in
  Some (py_take unique n_results).

End movies.

End MainApp.

(** [app/cloud_app.py]: its own copy of [extract_dish_name], on the same
    record of fields. *)
Module CloudApp.
Import MainApp.

Definition separators : list pystr :=
  [lit " - "; [32; 8211; 32]; lit ". "; lit ", a "; lit ", this "; lit ", an "].

Fixpoint cut_at_separators (seps : list pystr) (raw : pystr) : pystr :=
  match seps with
  | [] => raw
  | sep :: rest => if py_in sep raw then py_strip (before sep raw)
                   else cut_at_separators rest raw
  end.

Definition markdown_value (line : pystr) : pystr :=
  let raw := py_strip (strip_by (fun c => c =? 42)
               (py_strip (last (split_on (fun c => c =? 58) line) []))) in
  cut_at_separators separators raw.

Section defs.
Context {U : UnicodeDB}.

Definition fallback_line (d : dishes) (line : pystr) : dishes :=
  let line := py_strip line in
  if py_in (lit "Main Dish") line && py_in (lit ":") line then
    set_main (markdown_value line) d
  else if py_in (lit "Drink") line && py_in (lit ":") line && is_empty (drink d) then
    set_drink (markdown_value line) d
  else if py_in (lit "Snack") line && py_in (lit ":") line && is_empty (snack d) then
    set_snack (markdown_value line) d
  else d.

Definition clean_field (v : pystr) : pystr :=
  if is_empty v then v
  else py_strip (collapse_ws (py_strip (sub_nonkeep v))).

Definition extract_dish_name (response : pystr) : dishes :=
  let dishes0 := mk_dishes [] [] [] in
  let normalized := py_replace (lit "MAIN_DISH:") (lit "MAIN DISH:") response in
  let main_match := re_search_field (lit "MAIN DISH:") [lit "DRINK:"; lit "SNACK:"] normalized in
  let drink_match := re_search_field (lit "DRINK:") [lit "SNACK:"; lit "MAIN DISH:"] normalized in
  let snack_match := re_search_field (lit "SNACK:") [lit "MAIN DISH:"; lit "DRINK:"] normalized in
  let dishes1 := match main_match with Some g => set_main (py_strip g) dishes0 | None => dishes0 end in
  let dishes2 := match drink_match with Some g => set_drink (py_strip g) dishes1 | None => dishes1 end in
  let dishes3 := match snack_match with Some g => set_snack (py_strip g) dishes2 | None => dishes2 end in
  let dishes4 := if is_empty (main dishes3)
                 then fold_left fallback_line (split_on (fun c => c =? 10) response) dishes3
                 else dishes3 in
  mk_dishes (clean_field (main dishes4)) (clean_field (drink dishes4)) (clean_field (snack dishes4)).

End defs.
End CloudApp.

(** ** Definitions that follow the spec's words *)
Module Spec.
Import MainApp.

(** Step 2 of the resolver as the spec words it: drop the first word again
    and again, down to the last word. *)
Fixpoint left_trims (ws : list pystr) : list pystr :=
  match ws with
  | _ :: ((_ :: _) as rest) => py_join [32] rest :: left_trims rest
  | _ => []
  end.

(** One lookup per candidate, stopping at the first hit: the result and the
    queries sent. *)
Fixpoint first_hit (search_recipe : pystr -> option recipe) (cands : list pystr)
  : option recipe * list pystr :=
  match cands with
  | [] => (None, [])
  | q :: qs =>
      match search_recipe q with
      | Some r => (Some r, [q])
      | None => let (res, tr) := first_hit search_recipe qs in (res, q :: tr)
      end
  end.

Definition long_word (w : pystr) : bool := Nat.ltb 3 (length w).

(** [b] comes no earlier than [a] in a longest-first order. *)
Definition longer_eq (a b : pystr) : Prop := (length b <= length a)%nat.

(** The lookups [search_recipe_smart] may send, in order. *)
Definition candidates {U : UnicodeDB} (dish_name : pystr) : list pystr :=
  let c := clean_dish_name dish_name in
  c :: left_trims (py_split c) ++ filter long_word (sort_by_len_desc (py_split c)).

Definition labels : list pystr :=
  [lit "MAIN DISH:"; lit "MAIN_DISH:"; lit "DRINK:"; lit "SNACK:"].

(** No two whitespace characters in a row. *)
Fixpoint no_ws_run (s : pystr) : bool :=
  match s with
  | c :: ((d :: _) as s') => negb (is_space c && is_space d) && no_ws_run s'
  | _ => true
  end.

(** Every whitespace character is a space, and none follows another one
    ([prev] says the previous character was whitespace). *)
Fixpoint single_spaced (prev : bool) (s : pystr) : bool :=
  match s with
  | [] => true
  | c :: s' => if is_space c then (c =? 32) && negb prev && single_spaced true s'
               else single_spaced false s'
  end.

(** A field value as the claims describe it: nonempty, no newline, no field
    label, only characters the post-processing keeps, no leading or trailing
    whitespace and no whitespace run. *)
Definition field_value {U : UnicodeDB} (a : pystr) : bool :=
  negb (is_empty a) && forallb (fun c => negb (c =? 10)) a &&
  forallb (fun l => negb (py_in l a)) labels && forallb keep a &&
  negb (is_space (hd 32 a)) && negb (is_space (last a 32)) && no_ws_run a.

(** The same with single spaces as the only whitespace. *)
Definition field_value_spaced {U : UnicodeDB} (a : pystr) : bool :=
  field_value a && single_spaced false a.

(** The output characters the spec names: letters, digits, whitespace,
    apostrophe and hyphen. *)
Definition spec_output_char {U : UnicodeDB} (c : N) : bool :=
  isalnum c || is_space c || (c =? 39) || (c =? 45).

Definition line_response (a b c : pystr) : pystr :=
  lit "MAIN DISH: " ++ a ++ [10] ++ lit "DRINK: " ++ b ++ [10] ++ lit "SNACK: " ++ c.

Definition one_line_response (a b c : pystr) : pystr :=
  lit "MAIN DISH: " ++ a ++ lit " DRINK: " ++ b ++ lit " SNACK: " ++ c.

(** Python's tables agree with ASCII on the ASCII characters. *)
Definition ascii_isalnum (c : N) : bool :=
  ((48 <=? c) && (c <=? 57)) || ((65 <=? c) && (c <=? 90)) || ((97 <=? c) && (c <=? 122)).

Definition ascii_lower (c : N) : N := if (65 <=? c) && (c <=? 90) then c + 32 else c.

Definition ascii_agrees (U : UnicodeDB) : Prop :=
  forall c, c < 128 -> isalnum c = ascii_isalnum c /\ lower_char c = [ascii_lower c].

(** An instance for concrete runs: the ASCII tables, no other character
    alphanumeric, the others their own lowercase. *)
Definition ascii_db : UnicodeDB :=
  {| isalnum := ascii_isalnum; lower_char := fun c => [ascii_lower c] |}.

(** A code point [str.encode('utf-8')] accepts. *)
Definition scalar (c : N) : Prop := c < 1114112 /\ ~ (55296 <= c /\ c <= 57343).

(** Decoders, the inverses of [quote]'s two stages. *)
Definition unhex (h : N) : N := if h <? 58 then h - 48 else h - 55.

Fixpoint percent_decode (s : pystr) : list N :=
  match s with
  | c :: s' =>
      if c =? 37 then
        match s' with
        | h1 :: h2 :: s'' => (unhex h1 * 16 + unhex h2) :: percent_decode s''
        | _ => c :: percent_decode s'
        end
      else c :: percent_decode s'
  | [] => []
  end.

Fixpoint utf8_decode (bs : list N) : pystr :=
  match bs with
  | b0 :: r1 =>
      if b0 <? 128 then b0 :: utf8_decode r1 else
      match r1 with
      | b1 :: r2 =>
          if b0 <? 224 then ((b0 - 192) * 64 + (b1 - 128)) :: utf8_decode r2 else
          match r2 with
          | b2 :: r3 =>
              if b0 <? 240 then
                ((b0 - 224) * 4096 + (b1 - 128) * 64 + (b2 - 128)) :: utf8_decode r3
              else
                match r3 with
                | b3 :: r4 =>
                    ((b0 - 240) * 262144 + (b1 - 128) * 4096 + (b2 - 128) * 64 + (b3 - 128))
                    :: utf8_decode r4
                | [] => []
                end
          | [] => []
          end
      | [] => []
      end
  | [] => []
  end.

(** The characters the encoded part of a URL consists of. *)
Definition url_char (c : N) : bool := always_safe c || (c =? 47) || (c =? 37).
Definition url_char_noslash (c : N) : bool := always_safe c || (c =? 37).

Definition is_hex (h : N) : bool := ((48 <=? h) && (h <=? 57)) || ((65 <=? h) && (h <=? 70)).

(** Unreserved characters and ['/'], and ['%'] only as the start of an
    escape ['%XX'] with two upper-case hex digits. *)
Fixpoint wf_escapes (q : pystr) : bool :=
  match q with
  | [] => true
  | c :: t =>
      if c =? 37 then
        match t with
        | h1 :: h2 :: t' => is_hex h1 && is_hex h2 && wf_escapes t'
        | _ => false
        end
      else url_char c && wf_escapes t
  end.

End Spec.

Import Spec.
(** * Proofs *)
Module Proofs.
Import MainApp Spec.

(** ** Lists, [str.split], [str.join], [str.strip] and the whitespace
    collapse *)

Lemma last_app_cons (l l' : list N) (x d : N) :
  last (l ++ x :: l') d = last (x :: l') d.
Proof.
  induction l as [|y l IH]; [reflexivity|].
  rewrite <- app_comm_cons. simpl. rewrite IH.
  destruct l; simpl; reflexivity.
Qed.

Lemma last_default (l : list N) (d d' : N) : l <> [] -> last l d = last l d'.
Proof.
  induction l as [|x l IH]; [contradiction|]. intros _.
  destruct l as [|y l]; [reflexivity|]. simpl in *. apply IH. discriminate.
Qed.

Definition no_sep (p : N -> bool) (w : pystr) : bool := forallb (fun c => negb (p c)) w.

(** A word of [str.split()]: nonempty, without whitespace. *)
Definition good_word (w : pystr) : Prop := w <> [] /\ no_sep is_space w = true.

Lemma split_on_no_sep p w : no_sep p w = true -> split_on p w = [w].
Proof.
  induction w as [|c w IH]; [reflexivity|]. simpl.
  intros H. apply andb_prop in H as [Hc Hw].
  rewrite IH by exact Hw. destruct (p c); [discriminate|reflexivity].
Qed.

Lemma split_on_app_sep p w c t :
  no_sep p w = true -> p c = true -> split_on p (w ++ c :: t) = w :: split_on p t.
Proof.
  intros Hw Hc. induction w as [|x w IH]; simpl.
  - rewrite Hc. reflexivity.
  - simpl in Hw. apply andb_prop in Hw as [Hx Hw].
    rewrite (IH Hw). destruct (p x); [discriminate|reflexivity].
Qed.

Lemma split_on_join p c ws :
  ws <> [] -> p c = true -> Forall (fun w => no_sep p w = true) ws ->
  split_on p (py_join [c] ws) = ws.
Proof.
  intros Hne Hc Hws. induction Hws as [|w ws Hw Hws IH]; [contradiction|].
  destruct ws as [|w' ws].
  - simpl. apply split_on_no_sep. exact Hw.
  - change (py_join [c] (w :: w' :: ws)) with (w ++ c :: py_join [c] (w' :: ws)).
    rewrite split_on_app_sep by assumption. rewrite IH by discriminate. reflexivity.
Qed.

Lemma split_on_pieces p s :
  Forall (fun w => no_sep p w = true /\ incl w s) (split_on p s).
Proof.
  induction s as [|c s IH]; simpl.
  - constructor; [split; [reflexivity|intros x []]|constructor].
  - destruct (p c) eqn:Hc.
    + constructor.
      * split; [reflexivity|intros x []].
      * eapply Forall_impl; [|exact IH]. intros w [Hw Hi].
        split; [exact Hw|]. intros x Hx. right. apply Hi. exact Hx.
    + destruct (split_on p s) as [|seg rest] eqn:Hs.
      * constructor; [|constructor]. split.
        -- simpl. rewrite Hc. reflexivity.
        -- intros x [<-|[]]. left. reflexivity.
      * inversion IH as [|? ? [Hseg Hi] Hrest]; subst.
        constructor.
        -- split.
           ++ simpl. rewrite Hc, Hseg. reflexivity.
           ++ intros x [<-|Hx]; [left; reflexivity|right; apply Hi; exact Hx].
        -- eapply Forall_impl; [|exact Hrest]. intros w [Hw Hi'].
           split; [exact Hw|]. intros x Hx. right. apply Hi'. exact Hx.
Qed.

Lemma py_split_good s : Forall (fun w => good_word w /\ incl w s) (py_split s).
Proof.
  unfold py_split. pose proof (split_on_pieces is_space s) as H.
  induction H as [|w ws [Hw Hi] _ IH]; simpl; [constructor|].
  destruct w as [|c w']; simpl; [exact IH|].
  constructor; [|exact IH]. split; [split; [discriminate|exact Hw]|exact Hi].
Qed.

Lemma py_split_join ws : Forall good_word ws -> py_split (py_join [32] ws) = ws.
Proof.
  intros Hws. destruct ws as [|w ws]; [reflexivity|].
  unfold py_split. rewrite split_on_join.
  - apply forallb_filter_id. apply forallb_forall. intros x Hx.
    rewrite Forall_forall in Hws. destruct (Hws x Hx) as [Hne _].
    destruct x; [contradiction|reflexivity].
  - discriminate.
  - reflexivity.
  - eapply Forall_impl; [|exact Hws]. intros x [_ H]. exact H.
Qed.

Lemma drop_while_stop p s : p (hd 0 s) = false -> drop_while p s = s.
Proof. destruct s as [|c s]; simpl; [reflexivity|]. intros H. rewrite H. reflexivity. Qed.

Lemma strip_by_id p s :
  p (hd 0 s) = false -> p (last s 0) = false -> strip_by p s = s.
Proof.
  intros Hh Hl. unfold strip_by. rewrite (drop_while_stop p s Hh).
  destruct s as [|c s']; [reflexivity|].
  remember (c :: s') as l eqn:El.
  assert (Hne : l <> []) by (subst l; discriminate).
  pose proof (app_removelast_last 0 Hne) as E.
  rewrite E at 1. rewrite rev_app_distr. simpl. rewrite Hl.
  simpl. rewrite rev_involutive. symmetry. exact E.
Qed.

Lemma single_spaced_app_word b w t :
  good_word w -> single_spaced b (w ++ t) = single_spaced false t.
Proof.
  intros [Hne Hw]. revert b. induction w as [|x w IH]; [contradiction|]. intros b.
  simpl in Hw. apply andb_prop in Hw as [Hx Hw].
  simpl. destruct (is_space x); [discriminate|].
  destruct w as [|y w]; [reflexivity|]. apply IH; [discriminate|exact Hw].
Qed.

Lemma single_spaced_true_hd s : single_spaced true s = true -> is_space (hd 0 s) = false.
Proof.
  destruct s as [|c s]; [reflexivity|]. simpl.
  destruct (is_space c); [|reflexivity]. rewrite andb_false_r. discriminate.
Qed.

Lemma single_spaced_true_false s : single_spaced true s = true -> single_spaced false s = true.
Proof.
  destruct s as [|c s]; [reflexivity|]. simpl.
  destruct (is_space c); [|exact id]. rewrite andb_false_r. discriminate.
Qed.

Lemma collapse_go_id b s : single_spaced b s = true -> collapse_go b s = s.
Proof.
  revert b. induction s as [|c s IH]; intros b H; [reflexivity|]. simpl in *.
  destruct (is_space c).
  - apply andb_prop in H as [H Hs]. apply andb_prop in H as [Hc Hb].
    apply N.eqb_eq in Hc. subst c. destruct b; [discriminate|].
    rewrite (IH true Hs). reflexivity.
  - rewrite (IH false H). reflexivity.
Qed.

Lemma join_tidy ws :
  Forall good_word ws ->
  single_spaced true (py_join [32] ws) = true /\
  (ws <> [] -> is_space (last (py_join [32] ws) 0) = false).
Proof.
  induction 1 as [|w ws Hw Hws IH]; [split; [reflexivity|contradiction]|].
  destruct ws as [|w' ws].
  - simpl. split.
    + rewrite <- (app_nil_r w). rewrite single_spaced_app_word by exact Hw. reflexivity.
    + intros _. destruct Hw as [Hne Hw']. destruct w as [|x w]; [contradiction|].
      rewrite (@app_removelast_last N (x :: w) 0) in Hw' by discriminate.
      unfold no_sep in Hw'. rewrite forallb_app in Hw'. simpl in Hw'.
      apply andb_prop in Hw' as [_ H]. rewrite andb_true_r in H.
      apply negb_true_iff in H. exact H.
  - destruct IH as [IH1 IH2].
    change (py_join [32] (w :: w' :: ws)) with (w ++ 32 :: py_join [32] (w' :: ws)).
    split.
    + rewrite single_spaced_app_word by exact Hw. simpl. exact IH1.
    + intros _. rewrite last_app_cons.
      assert (Hn : py_join [32] (w' :: ws) <> []).
      { inversion Hws as [|? ? [Hne _] _]; subst.
        destruct ws; simpl; [exact Hne|]. destruct w'; [contradiction|discriminate]. }
      specialize (IH2 ltac:(discriminate)).
      destruct (py_join [32] (w' :: ws)) as [|y l] eqn:E; [contradiction|].
      exact IH2.
Qed.

Lemma forallb_join (P : N -> bool) ws :
  P 32 = true -> Forall (fun w => forallb P w = true) ws -> forallb P (py_join [32] ws) = true.
Proof.
  intros H32. induction 1 as [|w ws Hw Hws IH]; [reflexivity|].
  destruct ws as [|w' ws]; [exact Hw|].
  change (py_join [32] (w :: w' :: ws)) with (w ++ 32 :: py_join [32] (w' :: ws)).
  rewrite forallb_app, Hw.
  change (forallb P (32 :: py_join [32] (w' :: ws)))
    with (P 32 && forallb P (py_join [32] (w' :: ws))).
  rewrite H32, IH. reflexivity.
Qed.

Lemma strip_collapse_join ws :
  Forall good_word ws -> py_strip (collapse_ws (py_strip (py_join [32] ws))) = py_join [32] ws.
Proof.
  intros Hws. destruct (join_tidy ws Hws) as [Hs Hl].
  assert (Hstrip : py_strip (py_join [32] ws) = py_join [32] ws).
  { destruct ws as [|w ws']; [reflexivity|].
    apply strip_by_id; [apply single_spaced_true_hd; exact Hs|apply Hl; discriminate]. }
  rewrite Hstrip. unfold collapse_ws.
  rewrite collapse_go_id by (apply single_spaced_true_false; exact Hs). exact Hstrip.
Qed.

Section clean.
Context {U : UnicodeDB}.

Lemma keep_space c : is_space c = true -> keep c = true.
Proof. intros H. unfold keep. rewrite H. destruct (is_word c); reflexivity. Qed.

Lemma clean_dish_name_eq s :
  clean_dish_name s = py_join [32] (filter not_flair (py_split (sub_nonkeep s))).
Proof.
  unfold clean_dish_name. apply strip_collapse_join.
  apply Forall_forall. intros w Hw. apply filter_In in Hw as [Hw _].
  pose proof (py_split_good (sub_nonkeep s)) as H. rewrite Forall_forall in H.
  apply H. exact Hw.
Qed.

Lemma cleaned_words_good s :
  Forall (fun w => good_word w /\ forallb keep w = true /\ not_flair w = true)
         (filter not_flair (py_split (sub_nonkeep s))).
Proof.
  apply Forall_forall. intros w Hw. apply filter_In in Hw as [Hw Hf].
  pose proof (py_split_good (sub_nonkeep s)) as H. rewrite Forall_forall in H.
  destruct (H w Hw) as [Hg Hi]. split; [exact Hg|split; [|exact Hf]].
  apply forallb_forall. intros c Hc. apply Hi in Hc. unfold sub_nonkeep in Hc.
  apply filter_In in Hc as [_ Hk]. exact Hk.
Qed.

Lemma py_split_clean s :
  py_split (clean_dish_name s) = filter not_flair (py_split (sub_nonkeep s)).
Proof.
  rewrite clean_dish_name_eq. apply py_split_join.
  eapply Forall_impl; [|exact (cleaned_words_good s)]. intros w [H _]. exact H.
Qed.

Lemma keep_clean s : forallb keep (clean_dish_name s) = true.
Proof.
  rewrite clean_dish_name_eq. apply forallb_join; [apply keep_space; reflexivity|].
  eapply Forall_impl; [|exact (cleaned_words_good s)]. intros w [_ [H _]]. exact H.
Qed.

(** C6: [clean_dish_name] drops exactly the whitespace-delimited tokens
    (after the character filter) whose lowercase form is a flair word: the
    output's tokens are the other tokens, in order, so none of them is a
    flair word and a word that merely contains one, such as "Lovebird", is
    kept. *)
Theorem clean_dish_name_flair_tokens (s : pystr) :
  py_split (clean_dish_name s) = filter not_flair (py_split (sub_nonkeep s)) /\
  Forall (fun t => not_flair t = true) (py_split (clean_dish_name s)) /\
  @clean_dish_name ascii_db (lit "Lovebird Stew") = lit "Lovebird Stew".
Proof.
  split; [apply py_split_clean|split; [|vm_compute; reflexivity]].
  rewrite py_split_clean. apply Forall_forall. intros t Ht.
  apply filter_In in Ht as [_ H]. exact H.
Qed.

(** C7: [clean_dish_name] is idempotent. *)
Theorem clean_dish_name_idempotent (s : pystr) :
  clean_dish_name (clean_dish_name s) = clean_dish_name s.
Proof.
  rewrite (clean_dish_name_eq (clean_dish_name s)).
  unfold sub_nonkeep. rewrite (forallb_filter_id _ _ (keep_clean s)).
  rewrite py_split_clean, clean_dish_name_eq.
  f_equal. apply forallb_filter_id. apply forallb_filter.
Qed.

End clean.
(** ** The regex engine on concatenations

    A label can only start inside a field value [X] followed by [T] if it
    lies inside [X] or runs on into [T]; [clear L X T] says neither
    happens. *)

Lemma prefixb_app_inv L X T :
  prefixb L (X ++ T) = true ->
  prefixb L X = true \/ (length X < length L)%nat /\ prefixb (skipn (length X) L) T = true.
Proof.
  revert L. induction X as [|x X IH]; intros L H.
  - destruct L as [|l L]; [left; reflexivity|right; split; [simpl; lia|exact H]].
  - destruct L as [|l L]; [left; reflexivity|].
    simpl in H. apply andb_prop in H as [Hlx H].
    destruct (IH L H) as [H1|[H1 H2]].
    + left. simpl. rewrite Hlx, H1. reflexivity.
    + right. split; [simpl; lia|exact H2].
Qed.

Lemma py_in_false_suffix L X1 X2 : py_in L (X1 ++ X2) = false -> prefixb L X2 = false.
Proof.
  induction X1 as [|x X1 IH]; simpl; intros H.
  - destruct X2; simpl in H; apply orb_false_iff in H; apply H.
  - apply orb_false_iff in H as [_ H]. apply IH. exact H.
Qed.

Definition clear (L X T : pystr) : Prop :=
  forall X1 X2, X = X1 ++ X2 -> X2 <> [] -> prefixb L (X2 ++ T) = false.

Lemma clear_intro L X T :
  py_in L X = false ->
  (forall j, (0 < j < length L)%nat -> prefixb (skipn j L) T = false) ->
  clear L X T.
Proof.
  intros Hin Hj X1 X2 -> Hne.
  destruct (prefixb L (X2 ++ T)) eqn:E; [|reflexivity].
  destruct (prefixb_app_inv _ _ _ E) as [H|[H1 H2]].
  - rewrite (py_in_false_suffix L X1 X2 Hin) in H. discriminate.
  - rewrite Hj in H2; [discriminate|]. destruct X2; [contradiction|simpl in *; lia].
Qed.

Lemma clear_head L X t T : py_in L X = false -> ~ In t L -> clear L X (t :: T).
Proof.
  intros Hin Ht. apply clear_intro; [exact Hin|]. intros j Hj.
  destruct (skipn j L) as [|l L'] eqn:E.
  - apply (f_equal (@length N)) in E. rewrite length_skipn in E. simpl in E. lia.
  - simpl. destruct (N.eqb_spec l t); [|reflexivity]. subst l. exfalso. apply Ht.
    rewrite <- (firstn_skipn j L), E. apply in_or_app. right. left. reflexivity.
Qed.

Lemma clear_end L X : py_in L X = false -> clear L X [].
Proof.
  intros Hin. apply clear_intro; [exact Hin|]. intros j Hj.
  destruct (skipn j L) as [|l L'] eqn:E; [|reflexivity].
  apply (f_equal (@length N)) in E. rewrite length_skipn in E. simpl in E. lia.
Qed.

Lemma clear_tail L x X T : clear L (x :: X) T -> clear L X T.
Proof. intros H X1 X2 -> Hne. apply (H (x :: X1) X2 eq_refl Hne). Qed.

Lemma clear_first L x X T : clear L (x :: X) T -> prefixb L (x :: X ++ T) = false.
Proof. intros H. exact (H [] (x :: X) eq_refl ltac:(discriminate)). Qed.

Lemma py_in_skip L X T : clear L X T -> py_in L (X ++ T) = py_in L T.
Proof.
  induction X as [|x X IH]; intros H; [reflexivity|].
  simpl. rewrite (clear_first _ _ _ _ H). apply IH. eapply clear_tail. exact H.
Qed.

Lemma replace_nomatch old new s : py_in old s = false -> replace_go old new O s = s.
Proof.
  induction s as [|c s IH]; intros H; [reflexivity|].
  simpl in *. apply orb_false_iff in H as [H1 H2]. rewrite H1, IH by exact H2.
  reflexivity.
Qed.

Lemma re_search_field_cons label stops c s :
  re_search_field label stops (c :: s) =
  match (if prefixb label (c :: s) then greedy_ws stops (skipn (length label) (c :: s)) else None) with
  | Some g => Some g
  | None => re_search_field label stops s
  end.
Proof. reflexivity. Qed.

Lemma search_skip label stops X T :
  clear label X T -> re_search_field label stops (X ++ T) = re_search_field label stops T.
Proof.
  induction X as [|x X IH]; intros H; [reflexivity|].
  rewrite <- app_comm_cons, re_search_field_cons, (clear_first _ _ _ _ H).
  apply IH. eapply clear_tail. exact H.
Qed.

Lemma ws_prefixed_cons stops c s :
  ws_prefixed stops (c :: s) =
  existsb (fun l => prefixb l (c :: s)) stops || (is_space c && ws_prefixed stops s).
Proof. reflexivity. Qed.

Lemma existsb_clear stops x X T :
  Forall (fun L => clear L (x :: X) T) stops ->
  existsb (fun l => prefixb l (x :: X ++ T)) stops = false.
Proof.
  intros Hc. apply not_true_iff_false. intros Hx.
  apply existsb_exists in Hx as [L [HL HpL]]. rewrite Forall_forall in Hc.
  rewrite (clear_first _ _ _ _ (Hc L HL)) in HpL. discriminate.
Qed.

Lemma Forall_clear_tail stops x X T :
  Forall (fun L => clear L (x :: X) T) stops -> Forall (fun L => clear L X T) stops.
Proof. intros H. eapply Forall_impl; [|exact H]. intros L. apply clear_tail. Qed.

Lemma last_cons_cons (x y : N) l d : last (x :: y :: l) d = last (y :: l) d.
Proof. reflexivity. Qed.

Lemma ws_prefixed_skip stops X T :
  X <> [] -> is_space (last X 0) = false -> Forall (fun L => clear L X T) stops ->
  ws_prefixed stops (X ++ T) = false.
Proof.
  induction X as [|x X IH]; intros Hne Hl Hc; [contradiction|].
  rewrite <- app_comm_cons, ws_prefixed_cons, (existsb_clear _ _ _ _ Hc). simpl.
  destruct X as [|y X'].
  - simpl in Hl. rewrite Hl. reflexivity.
  - rewrite IH; [apply andb_false_r|discriminate|exact Hl|].
    eapply Forall_clear_tail. exact Hc.
Qed.

Lemma lazy_go_eq stops s :
  lazy_go stops s =
  if term_at stops s then Some []
  else match s with
       | [] => None
       | c :: s' => if c =? 10 then None else option_map (cons c) (lazy_go stops s')
       end.
Proof. destruct s; reflexivity. Qed.

Definition no_newline (X : pystr) : bool := forallb (fun c => negb (c =? 10)) X.

Lemma lazy_skip stops X T :
  no_newline X = true -> is_space (last X 0) = false ->
  Forall (fun L => clear L X T) stops ->
  lazy_go stops (X ++ T) = option_map (app X) (lazy_go stops T).
Proof.
  induction X as [|x X IH]; intros Hn Hl Hc.
  - simpl. destruct (lazy_go stops T); reflexivity.
  - unfold no_newline in Hn. simpl in Hn. apply andb_prop in Hn as [Hx Hn].
    apply negb_true_iff in Hx.
    assert (Hterm : term_at stops ((x :: X) ++ T) = false).
    { unfold term_at. rewrite ws_prefixed_skip by (try discriminate; assumption).
      rewrite <- app_comm_cons. simpl. rewrite Hx.
      destruct X; [destruct T|]; simpl; try rewrite Hx; reflexivity. }
    rewrite lazy_go_eq, Hterm, <- app_comm_cons, Hx.
    rewrite IH; [| exact Hn | | eapply Forall_clear_tail; exact Hc].
    + destruct (lazy_go stops T); reflexivity.
    + destruct X as [|y X']; [reflexivity|exact Hl].
Qed.

Lemma greedy_capture stops X T :
  X <> [] -> is_space (hd 0 X) = false -> no_newline X = true ->
  is_space (last X 0) = false -> Forall (fun L => clear L X T) stops ->
  term_at stops T = true ->
  greedy_ws stops (X ++ T) = Some X.
Proof.
  destruct X as [|x X]; [contradiction|]. intros _ Hh Hn Hl Hc Ht.
  simpl in Hh. pose proof Hn as Hn'. unfold no_newline in Hn. simpl in Hn.
  apply andb_prop in Hn as [Hx Hn]. apply negb_true_iff in Hx.
  rewrite <- app_comm_cons. simpl greedy_ws. rewrite Hh. unfold lazy_plus. rewrite Hx.
  rewrite lazy_skip; [| exact Hn | | eapply Forall_clear_tail; exact Hc].
  - rewrite lazy_go_eq, Ht. simpl. rewrite app_nil_r. reflexivity.
  - destruct X as [|y X']; [reflexivity|exact Hl].
Qed.

Lemma greedy_capture_space stops X T :
  X <> [] -> is_space (hd 0 X) = false -> no_newline X = true ->
  is_space (last X 0) = false -> Forall (fun L => clear L X T) stops ->
  term_at stops T = true ->
  greedy_ws stops (32 :: X ++ T) = Some X.
Proof.
  intros. simpl greedy_ws. rewrite greedy_capture by assumption. reflexivity.
Qed.

(** ** Field values in the labelled responses *)

Ltac not_in := let H := fresh in
  intro H; simpl in H; repeat (destruct H as [H|H]; [discriminate H|]); exact H.

Ltac lbl := match goal with H : py_in _ ?X = false |- py_in _ ?X = false => exact H end.

Ltac clear_tac :=
  first [ apply clear_end; lbl
        | apply clear_head; [lbl|not_in]
        | apply clear_intro; [lbl|];
          let j := fresh "j" in let Hj := fresh "Hj" in
          intros j Hj; simpl in Hj;
          do 12 (destruct j as [|j]; [first [lia|reflexivity]|]); lia ].

Ltac clears := repeat constructor; clear_tac.

Section fields.
Variables A B C : pystr.
Hypotheses (HA0 : A <> []) (HAn : no_newline A = true)
  (HAh : is_space (hd 0 A) = false) (HAl : is_space (last A 0) = false)
  (HA1 : py_in (lit "MAIN DISH:") A = false) (HA2 : py_in (lit "MAIN_DISH:") A = false)
  (HA3 : py_in (lit "DRINK:") A = false) (HA4 : py_in (lit "SNACK:") A = false).
Hypotheses (HB0 : B <> []) (HBn : no_newline B = true)
  (HBh : is_space (hd 0 B) = false) (HBl : is_space (last B 0) = false)
  (HB1 : py_in (lit "MAIN DISH:") B = false) (HB2 : py_in (lit "MAIN_DISH:") B = false)
  (HB3 : py_in (lit "DRINK:") B = false) (HB4 : py_in (lit "SNACK:") B = false).
Hypotheses (HC0 : C <> []) (HCn : no_newline C = true)
  (HCh : is_space (hd 0 C) = false) (HCl : is_space (last C 0) = false)
  (HC1 : py_in (lit "MAIN DISH:") C = false) (HC2 : py_in (lit "MAIN_DISH:") C = false)
  (HC3 : py_in (lit "DRINK:") C = false) (HC4 : py_in (lit "SNACK:") C = false).

Lemma line_no_variant : py_in (lit "MAIN_DISH:") (line_response A B C) = false.
Proof.
  unfold line_response. simpl.
  rewrite py_in_skip by clear_tac. simpl.
  rewrite py_in_skip by clear_tac. simpl.
  exact HC2.
Qed.

Lemma line_main :
  re_search_field (lit "MAIN DISH:") [lit "DRINK:"; lit "SNACK:"] (line_response A B C) = Some A.
Proof.
  unfold line_response. simpl.
  rewrite greedy_capture by (first [assumption | reflexivity | clears]). reflexivity.
Qed.

Lemma line_drink :
  re_search_field (lit "DRINK:") [lit "SNACK:"; lit "MAIN DISH:"] (line_response A B C) = Some B.
Proof.
  unfold line_response. simpl.
  rewrite search_skip by clear_tac. simpl.
  rewrite greedy_capture by (first [assumption | reflexivity | clears]). reflexivity.
Qed.

Lemma line_snack :
  re_search_field (lit "SNACK:") [lit "MAIN DISH:"; lit "DRINK:"] (line_response A B C) = Some C.
Proof.
  unfold line_response. simpl.
  rewrite search_skip by clear_tac. simpl.
  rewrite search_skip by clear_tac. simpl.
  rewrite <- (app_nil_r C).
  rewrite greedy_capture by (first [assumption | reflexivity | clears]).
  rewrite app_nil_r. reflexivity.
Qed.

Lemma one_line_no_variant : py_in (lit "MAIN_DISH:") (one_line_response A B C) = false.
Proof.
  unfold one_line_response. simpl.
  rewrite py_in_skip by clear_tac. simpl.
  rewrite py_in_skip by clear_tac. simpl.
  exact HC2.
Qed.

Lemma one_line_main :
  re_search_field (lit "MAIN DISH:") [lit "DRINK:"; lit "SNACK:"] (one_line_response A B C) = Some A.
Proof.
  unfold one_line_response. simpl.
  rewrite greedy_capture by (first [assumption | reflexivity | clears]). reflexivity.
Qed.

Lemma one_line_drink :
  re_search_field (lit "DRINK:") [lit "SNACK:"; lit "MAIN DISH:"] (one_line_response A B C) = Some B.
Proof.
  unfold one_line_response. simpl.
  rewrite search_skip by clear_tac. simpl.
  rewrite greedy_capture by (first [assumption | reflexivity | clears]). reflexivity.
Qed.

Lemma one_line_snack :
  re_search_field (lit "SNACK:") [lit "MAIN DISH:"; lit "DRINK:"] (one_line_response A B C) = Some C.
Proof.
  unfold one_line_response. simpl.
  rewrite search_skip by clear_tac. simpl.
  rewrite search_skip by clear_tac. simpl.
  rewrite <- (app_nil_r C).
  rewrite greedy_capture by (first [assumption | reflexivity | clears]).
  rewrite app_nil_r. reflexivity.
Qed.

End fields.

Section extract.
Context {U : UnicodeDB}.

(** The primary pass found all three fields and a nonempty main dish: the
    fallback pass does not run. *)
Lemma extract_primary r m d n :
  let normalized := py_replace (lit "MAIN_DISH:") (lit "MAIN DISH:") r in
  re_search_field (lit "MAIN DISH:") [lit "DRINK:"; lit "SNACK:"] normalized = Some m ->
  re_search_field (lit "DRINK:") [lit "SNACK:"; lit "MAIN DISH:"] normalized = Some d ->
  re_search_field (lit "SNACK:") [lit "MAIN DISH:"; lit "DRINK:"] normalized = Some n ->
  py_strip m <> [] ->
  extract_dish_name r =
  mk_dishes (clean_field (py_strip m)) (clean_field (py_strip d)) (clean_field (py_strip n)).
Proof.
  intros normalized Hm Hd Hn Hne. unfold extract_dish_name. fold normalized.
  rewrite Hm, Hd, Hn.
  remember (py_strip m) as pm. remember (py_strip d) as pd. remember (py_strip n) as pn.
  destruct pm as [|x pm]; [contradiction|]. reflexivity.
Qed.

Lemma clean_field_id X :
  X <> [] -> forallb keep X = true -> single_spaced false X = true ->
  is_space (hd 0 X) = false -> is_space (last X 0) = false -> clean_field X = X.
Proof.
  intros Hne Hk Hs Hh Hl. unfold clean_field.
  destruct X as [|x X']; [contradiction|]. cbn [is_empty].
  unfold sub_nonkeep. rewrite (forallb_filter_id _ _ Hk).
  unfold py_strip. rewrite (strip_by_id is_space (x :: X')) by assumption.
  unfold collapse_ws. rewrite collapse_go_id by exact Hs.
  apply strip_by_id; assumption.
Qed.

Lemma field_value_facts X :
  field_value X = true ->
  X <> [] /\ no_newline X = true /\
  py_in (lit "MAIN DISH:") X = false /\ py_in (lit "MAIN_DISH:") X = false /\
  py_in (lit "DRINK:") X = false /\ py_in (lit "SNACK:") X = false /\
  forallb keep X = true /\ is_space (hd 0 X) = false /\ is_space (last X 0) = false.
Proof.
  unfold field_value. intros H.
  repeat match goal with H : _ && _ = true |- _ => apply andb_prop in H as [? ?] end.
  repeat match goal with H : negb _ = true |- _ => apply negb_true_iff in H end.
  destruct X as [|x X']; [discriminate|].
  match goal with H : forallb _ labels = true |- _ => unfold labels in H; cbn [forallb] in H end.
  repeat match goal with H : _ && _ = true |- _ => apply andb_prop in H as [? ?] end.
  repeat match goal with H : negb _ = true |- _ => apply negb_true_iff in H end.
  repeat split; try assumption; try discriminate.
  all: try (rewrite (last_default _ 0 32) by discriminate; assumption).
Qed.

Ltac field_facts H :=
  let H0 := fresh "H0" in let Hn := fresh "Hn" in let H1 := fresh "H1" in
  let H2 := fresh "H2" in let H3 := fresh "H3" in let H4 := fresh "H4" in
  let Hk := fresh "Hk" in let Hh := fresh "Hh" in let Hl := fresh "Hl" in
  destruct (field_value_facts _ H) as (H0 & Hn & H1 & H2 & H3 & H4 & Hk & Hh & Hl).

Lemma strip_field X : is_space (hd 0 X) = false -> is_space (last X 0) = false -> py_strip X = X.
Proof. apply strip_by_id. Qed.

(** C3, as amended: for field values whose only whitespace is single spaces,
    the three-line response gives back exactly the three values. *)
Theorem extract_line_response_spaced (a b c : pystr) :
  field_value_spaced a = true -> field_value_spaced b = true -> field_value_spaced c = true ->
  extract_dish_name (line_response a b c) = mk_dishes a b c.
Proof.
  unfold field_value_spaced. intros Ha Hb Hc.
  apply andb_prop in Ha as [Ha Has]. apply andb_prop in Hb as [Hb Hbs].
  apply andb_prop in Hc as [Hc Hcs].
  field_facts Ha. field_facts Hb. field_facts Hc.
  assert (Hnorm : py_replace (lit "MAIN_DISH:") (lit "MAIN DISH:") (line_response a b c)
                  = line_response a b c).
  { apply replace_nomatch. apply line_no_variant; assumption. }
  rewrite (extract_primary _ a b c).
  - rewrite !strip_field by assumption. f_equal; apply clean_field_id; assumption.
  - cbv zeta. rewrite Hnorm. apply line_main; assumption.
  - cbv zeta. rewrite Hnorm. apply line_drink; assumption.
  - cbv zeta. rewrite Hnorm. apply line_snack; assumption.
  - rewrite strip_field by assumption. assumption.
Qed.

(** C4, as amended: the same for the one-line response. *)
Theorem extract_one_line_response_spaced (a b c : pystr) :
  field_value_spaced a = true -> field_value_spaced b = true -> field_value_spaced c = true ->
  extract_dish_name (one_line_response a b c) = mk_dishes a b c.
Proof.
  unfold field_value_spaced. intros Ha Hb Hc.
  apply andb_prop in Ha as [Ha Has]. apply andb_prop in Hb as [Hb Hbs].
  apply andb_prop in Hc as [Hc Hcs].
  field_facts Ha. field_facts Hb. field_facts Hc.
  assert (Hnorm : py_replace (lit "MAIN_DISH:") (lit "MAIN DISH:") (one_line_response a b c)
                  = one_line_response a b c).
  { apply replace_nomatch. apply one_line_no_variant; assumption. }
  rewrite (extract_primary _ a b c).
  - rewrite !strip_field by assumption. f_equal; apply clean_field_id; assumption.
  - cbv zeta. rewrite Hnorm. apply one_line_main; assumption.
  - cbv zeta. rewrite Hnorm. apply one_line_drink; assumption.
  - cbv zeta. rewrite Hnorm. apply one_line_snack; assumption.
  - rewrite strip_field by assumption. assumption.
Qed.

Lemma forallb_rev_eq (P : N -> bool) s : forallb P (rev s) = forallb P s.
Proof.
  induction s as [|c s IH]; [reflexivity|]. simpl.
  rewrite forallb_app, IH. simpl. rewrite andb_true_r, andb_comm. reflexivity.
Qed.

Lemma forallb_drop_while (P q : N -> bool) s :
  forallb P s = true -> forallb P (drop_while q s) = true.
Proof.
  induction s as [|c s IH]; [reflexivity|]. simpl. intros H.
  apply andb_prop in H as [Hc Hs]. destruct (q c); [apply IH; exact Hs|].
  simpl. rewrite Hc, Hs. reflexivity.
Qed.

Lemma forallb_strip_by (P q : N -> bool) s :
  forallb P s = true -> forallb P (strip_by q s) = true.
Proof.
  intros H. unfold strip_by. rewrite forallb_rev_eq. apply forallb_drop_while.
  rewrite forallb_rev_eq. apply forallb_drop_while. exact H.
Qed.

Lemma forallb_collapse (P : N -> bool) b s :
  P 32 = true -> forallb P s = true -> forallb P (collapse_go b s) = true.
Proof.
  intros H32. revert b. induction s as [|c s IH]; intros b H; [reflexivity|].
  simpl in H. apply andb_prop in H as [Hc Hs]. simpl.
  destruct (is_space c); [destruct b|]; simpl;
    rewrite ?H32, ?Hc; simpl; apply IH; exact Hs.
Qed.

Lemma clean_field_keep v : forallb keep (clean_field v) = true.
Proof.
  unfold clean_field. destruct (is_empty v) eqn:E.
  - destruct v; [reflexivity|discriminate].
  - unfold py_strip. apply forallb_strip_by. apply forallb_collapse; [apply keep_space; reflexivity|].
    apply forallb_strip_by. apply forallb_filter.
Qed.

Lemma extract_form r :
  exists d, extract_dish_name r =
            mk_dishes (clean_field (main d)) (clean_field (drink d)) (clean_field (snack d)).
Proof. eexists. reflexivity. Qed.

(** C5, as amended: every character of every extracted field is a letter or
    digit ([str.isalnum]), an underscore, whitespace, an apostrophe or a
    hyphen. *)
Theorem extract_output_chars (r : pystr) :
  forallb keep (main (extract_dish_name r)) = true /\
  forallb keep (drink (extract_dish_name r)) = true /\
  forallb keep (snack (extract_dish_name r)) = true.
Proof.
  destruct (extract_form r) as [d ->]. simpl.
  split; [|split]; apply clean_field_keep.
Qed.

(** C9: the extractors of [app/main.py] and [app/cloud_app.py] agree on
    every response. *)
Theorem extractors_agree (r : pystr) :
  MainApp.extract_dish_name r = CloudApp.extract_dish_name r.
Proof. reflexivity. Qed.

End extract.

(** C3 fails as stated: "a<TAB>b" passes every condition of the claim (a tab
    is no whitespace run) but the post-processing turns the tab into a space. *)
Lemma extract_line_response_tab :
  @field_value ascii_db [97; 9; 98] = true /\ @field_value ascii_db (lit "Cola") = true /\
  @field_value ascii_db (lit "Chips") = true /\
  @extract_dish_name ascii_db (line_response [97; 9; 98] (lit "Cola") (lit "Chips"))
  = mk_dishes [97; 32; 98] (lit "Cola") (lit "Chips") /\
  @extract_dish_name ascii_db (line_response [97; 9; 98] (lit "Cola") (lit "Chips"))
  <> mk_dishes [97; 9; 98] (lit "Cola") (lit "Chips").
Proof. repeat split; vm_compute; [reflexivity ..|discriminate]. Qed.

(** C4 fails as stated, on the same field value. *)
Lemma extract_one_line_response_tab :
  @field_value ascii_db [97; 9; 98] = true /\ @field_value ascii_db (lit "Cola") = true /\
  @field_value ascii_db (lit "Chips") = true /\
  @extract_dish_name ascii_db (one_line_response [97; 9; 98] (lit "Cola") (lit "Chips"))
  = mk_dishes [97; 32; 98] (lit "Cola") (lit "Chips") /\
  @extract_dish_name ascii_db (one_line_response [97; 9; 98] (lit "Cola") (lit "Chips"))
  <> mk_dishes [97; 9; 98] (lit "Cola") (lit "Chips").
Proof. repeat split; vm_compute; [reflexivity ..|discriminate]. Qed.

Lemma extract_line_response_spaced_witness :
  @field_value_spaced ascii_db (lit "Spaghetti Carbonara") = true /\
  @field_value_spaced ascii_db (lit "Chianti") = true /\
  @field_value_spaced ascii_db (lit "Garlic Bread") = true /\
  @extract_dish_name ascii_db
    (line_response (lit "Spaghetti Carbonara") (lit "Chianti") (lit "Garlic Bread"))
  = mk_dishes (lit "Spaghetti Carbonara") (lit "Chianti") (lit "Garlic Bread").
Proof.
  split; [vm_compute; reflexivity|]. split; [vm_compute; reflexivity|].
  split; [vm_compute; reflexivity|].
  apply (@extract_line_response_spaced ascii_db); vm_compute; reflexivity.
Defined.

Lemma extract_one_line_response_spaced_witness :
  @field_value_spaced ascii_db (lit "Kung Pao Chicken") = true /\
  @field_value_spaced ascii_db (lit "Lychee Tea") = true /\
  @field_value_spaced ascii_db (lit "Edamame") = true /\
  @extract_dish_name ascii_db
    (one_line_response (lit "Kung Pao Chicken") (lit "Lychee Tea") (lit "Edamame"))
  = mk_dishes (lit "Kung Pao Chicken") (lit "Lychee Tea") (lit "Edamame").
Proof.
  split; [vm_compute; reflexivity|]. split; [vm_compute; reflexivity|].
  split; [vm_compute; reflexivity|].
  apply (@extract_one_line_response_spaced ascii_db); vm_compute; reflexivity.
Defined.

(** ** The resolver as a list of candidates *)

Lemma first_hit_app sr l1 l2 :
  first_hit sr (l1 ++ l2) =
  let (res, t) := first_hit sr l1 in
  match res with
  | Some r => (Some r, t)
  | None => let (res2, t2) := first_hit sr l2 in (res2, t ++ t2)
  end.
Proof.
  induction l1 as [|q l1 IH]; simpl.
  - destruct (first_hit sr l2); reflexivity.
  - destruct (sr q); [reflexivity|]. rewrite IH.
    destruct (first_hit sr l1) as [[r|] t]; [reflexivity|].
    destruct (first_hit sr l2); reflexivity.
Qed.

Lemma trim_loop_spec sr ws : trim_loop sr ws = first_hit sr (left_trims ws).
Proof.
  induction ws as [|w ws IH]; [reflexivity|]. destruct ws as [|w' ws]; [reflexivity|].
  change (lk_bind (lookup sr (py_join [32] (w' :: ws)))
            (fun r => match r with Some _ => lk_ret r | None => trim_loop sr (w' :: ws) end)
          = first_hit sr (py_join [32] (w' :: ws) :: left_trims (w' :: ws))).
  rewrite IH. unfold lk_bind, lookup, lk_ret. cbn [first_hit].
  destruct (sr (py_join [32] (w' :: ws))); [reflexivity|].
  destruct (first_hit sr (left_trims (w' :: ws))); reflexivity.
Qed.

Lemma word_loop_spec sr ws : word_loop sr ws = first_hit sr (filter long_word ws).
Proof.
  induction ws as [|w ws IH]; [reflexivity|]. simpl. unfold long_word.
  destruct (Nat.ltb 3 (length w)); [|exact IH].
  unfold lk_bind, lookup, lk_ret. cbn [first_hit].
  destruct (sr w); [reflexivity|]. rewrite IH. destruct (first_hit sr _); reflexivity.
Qed.

Lemma insert_perm w l : Permutation (insert_by_len w l) (w :: l).
Proof.
  induction l as [|x l IH]; simpl; [reflexivity|].
  destruct (Nat.ltb (length x) (length w)); [reflexivity|].
  eapply perm_trans; [apply perm_skip; exact IH|apply perm_swap].
Qed.

Lemma sort_perm_go l acc :
  Permutation (fold_left (fun acc w => insert_by_len w acc) l acc) (l ++ acc).
Proof.
  revert acc. induction l as [|w l IH]; intros acc; simpl; [reflexivity|].
  eapply perm_trans; [apply IH|].
  eapply perm_trans; [apply Permutation_app_head; apply insert_perm|].
  apply Permutation_sym, Permutation_middle.
Qed.

Lemma sort_perm l : Permutation (sort_by_len_desc l) l.
Proof.
  unfold sort_by_len_desc. eapply perm_trans; [apply sort_perm_go|].
  rewrite app_nil_r. reflexivity.
Qed.

Lemma insert_hd x w l :
  HdRel longer_eq x l -> longer_eq x w -> HdRel longer_eq x (insert_by_len w l).
Proof.
  intros H Hw. destruct l as [|y l]; simpl; [constructor; exact Hw|].
  destruct (Nat.ltb (length y) (length w)); constructor; [exact Hw|].
  inversion H; assumption.
Qed.

Lemma insert_sorted w l : Sorted longer_eq l -> Sorted longer_eq (insert_by_len w l).
Proof.
  induction 1 as [|x l Hl IH Hx]; simpl; [constructor; constructor|].
  destruct (Nat.ltb (length x) (length w)) eqn:E.
  - apply PeanoNat.Nat.ltb_lt in E. constructor; [constructor; assumption|].
    constructor. unfold longer_eq. lia.
  - apply PeanoNat.Nat.ltb_ge in E. constructor; [exact IH|].
    apply insert_hd; [exact Hx|]. unfold longer_eq. exact E.
Qed.

Lemma sort_sorted l : Sorted longer_eq (sort_by_len_desc l).
Proof.
  unfold sort_by_len_desc. generalize (@Sorted_nil _ longer_eq).
  generalize (@nil pystr). induction l as [|w l IH]; intros acc H; simpl; [exact H|].
  apply IH. apply insert_sorted. exact H.
Qed.

Lemma filter_sorted (f : pystr -> bool) l :
  Sorted longer_eq l -> Sorted longer_eq (filter f l).
Proof.
  intros H. apply StronglySorted_Sorted.
  apply Sorted_StronglySorted in H; [|hnf; unfold longer_eq; intros; lia].
  induction H as [|x l _ IH Hx]; simpl; [constructor|].
  destruct (f x); [|exact IH]. constructor; [exact IH|].
  rewrite Forall_forall in *. intros y Hy. apply filter_In in Hy. apply Hx, Hy.
Qed.

Lemma filter_perm (f : pystr -> bool) l l' :
  Permutation l l' -> Permutation (filter f l) (filter f l').
Proof.
  induction 1 as [|x l l' _ IH|x y l|l l' l'' _ IH1 _ IH2]; simpl.
  - constructor.
  - destruct (f x); [apply perm_skip|]; exact IH.
  - destruct (f x), (f y); first [apply perm_swap | reflexivity].
  - eapply perm_trans; eassumption.
Qed.

Lemma first_hit_none sr l :
  fst (first_hit sr l) = None <-> Forall (fun q => sr q = None) l.
Proof.
  induction l as [|q l IH]; simpl; [split; constructor|].
  destruct (sr q) eqn:E.
  - split; [discriminate|]. intros H. inversion H; congruence.
  - destruct (first_hit sr l) as [res t] eqn:Ef. simpl. simpl in IH. rewrite IH.
    split; [intros H; constructor; assumption|intros H; inversion H; assumption].
Qed.

Lemma first_hit_trace_none sr l : fst (first_hit sr l) = None -> snd (first_hit sr l) = l.
Proof.
  induction l as [|q l IH]; simpl; [reflexivity|].
  destruct (sr q); [discriminate|].
  destruct (first_hit sr l) as [res t]. simpl in *. intros H. rewrite IH; auto.
Qed.

Lemma first_hit_some sr l r :
  fst (first_hit sr l) = Some r -> exists q, In q (snd (first_hit sr l)) /\ sr q = Some r.
Proof.
  induction l as [|q l IH]; simpl; [discriminate|].
  destruct (sr q) eqn:E.
  - simpl. intros H. inversion H; subst. exists q. split; [left; reflexivity|exact E].
  - destruct (first_hit sr l) as [res t]. simpl in *. intros H.
    destruct (IH H) as [q' [Hq' Hr]]. exists q'. split; [right; exact Hq'|exact Hr].
Qed.

Lemma flat_map_ext_in' (f g : N -> list N) (w : pystr) :
  (forall c, In c w -> f c = g c) -> flat_map f w = flat_map g w.
Proof.
  induction w as [|c w IH]; intros H; simpl; [reflexivity|].
  rewrite (H c (or_introl eq_refl)), IH; [reflexivity|]. intros x Hx. apply H. right. exact Hx.
Qed.

Lemma forallb_ascii s c : forallb (fun c => c <? 128) s = true -> In c s -> c < 128.
Proof.
  intros H Hc. rewrite forallb_forall in H. apply N.ltb_lt, H, Hc.
Qed.

Lemma str_eqb_true a b : str_eqb a b = true -> a = b.
Proof.
  revert b. induction a as [|x a IH]; intros [|y b] H; simpl in H; try discriminate; [reflexivity|].
  apply andb_prop in H as [Hx Hb]. apply N.eqb_eq in Hx. subst. f_equal. apply IH, Hb.
Qed.

Section resolver.
Context {U : UnicodeDB}.

Lemma smart_spec sr d : search_recipe_smart sr d = first_hit sr (candidates d).
Proof.
  unfold search_recipe_smart, candidates, lookup, lk_bind, lk_ret. cbn [first_hit].
  destruct (sr (clean_dish_name d)); [reflexivity|].
  rewrite trim_loop_spec, first_hit_app, word_loop_spec.
  destruct (first_hit sr (left_trims _)) as [[r|] t]; simpl; rewrite ?app_nil_r; [reflexivity|].
  destruct (first_hit sr (filter _ _)); reflexivity.
Qed.

(** On a name whose characters the tables treat as [ascii_db] does,
    [clean_dish_name] is the one computed with [ascii_db]. *)
Lemma clean_agree s :
  (forall c, In c s -> isalnum c = ascii_isalnum c /\ lower_char c = [ascii_lower c]) ->
  clean_dish_name s = @clean_dish_name ascii_db s.
Proof.
  intros H. rewrite !clean_dish_name_eq.
  assert (Hs : sub_nonkeep s = @sub_nonkeep ascii_db s).
  { unfold sub_nonkeep. apply filter_ext_in. intros c Hc.
    unfold keep, is_word. rewrite (proj1 (H c Hc)). reflexivity. }
  rewrite Hs. f_equal. apply filter_ext_in. intros w Hw.
  pose proof (py_split_good (@sub_nonkeep ascii_db s)) as G.
  rewrite Forall_forall in G. destruct (G w Hw) as [_ Hi].
  unfold not_flair. assert (Hl : py_lower w = @py_lower ascii_db w).
  { unfold py_lower. apply flat_map_ext_in'. intros c Hc. apply H.
    apply Hi in Hc. unfold sub_nonkeep in Hc. apply filter_In in Hc. apply Hc. }
  rewrite Hl. reflexivity.
Qed.

(** C2: the lookups are the cleaned name, then its left-trimmed suffixes
    down to the last word, then the words longer than three characters,
    longest first (ties in their original order), stopping at the first
    hit. On "Romantic Seared Salmon" ("Romantic" is a flair word) with a
    catalog where only "Salmon" hits, the queries are "Seared Salmon", then
    "Salmon", which returns the hit. *)
Theorem search_recipe_smart_order (sr : pystr -> option recipe) :
  (forall d, exists step3,
      Sorted longer_eq step3 /\
      Permutation step3 (filter long_word (py_split (clean_dish_name d))) /\
      search_recipe_smart sr d =
      first_hit sr (clean_dish_name d :: left_trims (py_split (clean_dish_name d)) ++ step3)) /\
  (ascii_agrees U -> forall r,
      (forall q, sr q <> None -> q = lit "Salmon") -> sr (lit "Salmon") = Some r ->
      search_recipe_smart sr (lit "Romantic Seared Salmon")
      = (Some r, [lit "Seared Salmon"; lit "Salmon"])).
Proof.
  split.
  - intros d. exists (filter long_word (sort_by_len_desc (py_split (clean_dish_name d)))).
    split; [apply filter_sorted, sort_sorted|]. split; [apply filter_perm, sort_perm|].
    rewrite smart_spec. reflexivity.
  - intros Hag r Honly Hsal.
    assert (Hclean : clean_dish_name (lit "Romantic Seared Salmon") = lit "Seared Salmon").
    { rewrite clean_agree; [vm_compute; reflexivity|]. intros c Hc. apply Hag.
      apply (forallb_ascii _ _ (eq_refl true : forallb (fun c => c <? 128) (lit "Romantic Seared Salmon") = true) Hc). }
    assert (Hc : candidates (lit "Romantic Seared Salmon")
                 = [lit "Seared Salmon"; lit "Salmon"; lit "Seared"; lit "Salmon"]).
    { unfold candidates. rewrite Hclean. vm_compute. reflexivity. }
    assert (E1 : sr (lit "Seared Salmon") = None).
    { destruct (sr (lit "Seared Salmon")) eqn:E; [|reflexivity]. exfalso.
      assert (Hq : lit "Seared Salmon" = lit "Salmon") by (apply Honly; rewrite E; discriminate).
      vm_compute in Hq. discriminate Hq. }
    rewrite smart_spec, Hc. cbn [first_hit]. rewrite E1, Hsal. reflexivity.
Qed.

(** C8: for every name and every total lookup, [search_recipe_smart]
    returns [None] exactly when every candidate misses, and then it has
    queried all of them; a returned recipe is what the lookup gave for one
    of the queries sent. *)
Theorem search_recipe_smart_total (sr : pystr -> option recipe) (d : pystr) :
  (fst (search_recipe_smart sr d) = None <-> Forall (fun q => sr q = None) (candidates d)) /\
  (fst (search_recipe_smart sr d) = None -> snd (search_recipe_smart sr d) = candidates d) /\
  (forall r, fst (search_recipe_smart sr d) = Some r ->
     exists q, In q (snd (search_recipe_smart sr d)) /\ sr q = Some r).
Proof.
  rewrite smart_spec. split; [apply first_hit_none|].
  split; [apply first_hit_trace_none|]. intros r. apply first_hit_some.
Qed.

End resolver.

(** C2 at a lookup where only "Salmon" hits. *)
Lemma search_recipe_smart_order_witness :
  ascii_agrees ascii_db /\
  @search_recipe_smart ascii_db
    (fun q => if str_eqb q (lit "Salmon") then Some (mk_recipe [] [] [] [] [] [] [] []) else None)
    (lit "Romantic Seared Salmon")
  = (Some (mk_recipe [] [] [] [] [] [] [] []), [lit "Seared Salmon"; lit "Salmon"]).
Proof.
  split; [intros c _; split; reflexivity|].
  apply (proj2 (@search_recipe_smart_order ascii_db _)).
  - intros c _. split; reflexivity.
  - intros q Hq. destruct (str_eqb q (lit "Salmon")) eqn:E; [|contradiction Hq; reflexivity].
    apply str_eqb_true. exact E.
  - vm_compute. reflexivity.
Defined.

(** ** Order links *)

Lemma is_space_small c : is_space c = true -> c <= 12288.
Proof.
  unfold is_space. intros H.
  repeat rewrite ?orb_true_iff, ?andb_true_iff, ?N.leb_le, ?N.eqb_eq in H. lia.
Qed.

Lemma utf8_encode_scalar c : scalar c -> exists b, utf8_encode c = Some b.
Proof.
  intros [H1 H2]. unfold utf8_encode.
  destruct (c <? 128); [eauto|]. destruct (c <? 2048); [eauto|].
  destruct (c <? 65536).
  - destruct ((55296 <=? c) && (c <=? 57343)) eqn:E; [|eauto]. exfalso.
    apply andb_prop in E as [E1 E2]. apply N.leb_le in E1, E2. lia.
  - destruct (c <? 1114112) eqn:E; [eauto|]. apply N.ltb_ge in E. lia.
Qed.

Lemma utf8_encode_all_scalar s : Forall scalar s -> exists bs, utf8_encode_all s = Some bs.
Proof.
  induction 1 as [|c s Hc _ [bs IH]]; [exists []; reflexivity|].
  destruct (utf8_encode_scalar c Hc) as [b Hb]. simpl. rewrite Hb, IH. eauto.
Qed.

Lemma quote_scalar s : Forall scalar s -> exists q, quote s = Some q.
Proof.
  intros H. destruct s as [|c s]; [exists []; reflexivity|].
  destruct (utf8_encode_all_scalar _ H) as [bs E].
  change (quote (c :: s)) with (option_map (flat_map quote_byte) (utf8_encode_all (c :: s))).
  rewrite E. eexists. reflexivity.
Qed.

Section links.
Context {U : UnicodeDB}.
Hypothesis alnum_scalar : forall c, isalnum c = true -> scalar c.

Lemma keep_scalar c : keep c = true -> scalar c.
Proof.
  unfold keep, is_word. intros H.
  destruct (isalnum c) eqn:Ea; [apply alnum_scalar, Ea|].
  assert (c <= 12288); [|unfold scalar; lia].
  destruct (is_space c) eqn:Es; [apply is_space_small, Es|].
  simpl in H. repeat rewrite ?orb_true_iff, ?N.eqb_eq in H. lia.
Qed.

(** C10: when every character [str.isalnum] accepts is a Unicode scalar
    value (as in Python), [get_order_links] returns the three links, each
    the fixed prefix of its service followed by the percent-encoding of the
    cleaned name rather than of the name itself; the cleaned name holds
    only letters, digits, underscores, whitespace, apostrophes and hyphens
    and no flair token, so the characters and flair tokens the cleaning
    drops never reach the links. *)
Theorem get_order_links_cleaned (d : pystr) :
  exists q, quote (clean_dish_name d) = Some q /\
    get_order_links d = Some [(key_uber, url_uber ++ q);
                              (key_lieferando, url_lieferando ++ q);
                              (key_just_eat, url_just_eat ++ q)] /\
    forallb keep (clean_dish_name d) = true /\
    Forall (fun t => not_flair t = true) (py_split (clean_dish_name d)).
Proof.
  pose proof (keep_clean d) as Hk.
  destruct (quote_scalar (clean_dish_name d)) as [q Hq].
  { apply Forall_forall. intros c Hc. apply keep_scalar.
    rewrite forallb_forall in Hk. apply Hk, Hc. }
  exists q. split; [exact Hq|]. split.
  - unfold get_order_links. cbv zeta. rewrite Hq. reflexivity.
  - split; [exact Hk|]. rewrite py_split_clean. apply Forall_forall. intros t Ht.
    apply filter_In in Ht as [_ H]. exact H.
Qed.

End links.

Lemma ascii_alnum_scalar c : ascii_isalnum c = true -> scalar c.
Proof.
  unfold ascii_isalnum. intros H.
  repeat rewrite ?orb_true_iff, ?andb_true_iff, ?N.leb_le in H. unfold scalar. lia.
Qed.

(** C10 at the ASCII tables on "Romantic Mac & Cheese!". *)
Lemma get_order_links_cleaned_witness :
  (forall c, @isalnum ascii_db c = true -> scalar c) /\
  @get_order_links ascii_db (lit "Romantic Mac & Cheese!")
  = Some [(key_uber, url_uber ++ lit "Mac%20Cheese");
          (key_lieferando, url_lieferando ++ lit "Mac%20Cheese");
          (key_just_eat, url_just_eat ++ lit "Mac%20Cheese")].
Proof.
  split; [exact ascii_alnum_scalar|].
  destruct (@get_order_links_cleaned ascii_db ascii_alnum_scalar (lit "Romantic Mac & Cheese!"))
    as [q [Hq [Hl _]]].
  rewrite Hl. vm_compute in Hq. injection Hq as <-. reflexivity.
Defined.

(** C5 fails as stated: an underscore is a [\w] character, so it survives
    the post-processing. *)
Lemma extract_keeps_underscore :
  main (@extract_dish_name ascii_db (lit "MAIN DISH: a_b")) = lit "a_b" /\
  forallb (@spec_output_char ascii_db) (main (@extract_dish_name ascii_db (lit "MAIN DISH: a_b")))
  = false.
Proof. split; vm_compute; reflexivity. Qed.

(** C1: in the fallback pass a later "Main Dish" line overwrites the main
    dish taken from an earlier one; the drink and snack branches check that
    their field is still empty, the main dish branch does not. *)
Lemma fallback_main_overwritten :
  @extract_dish_name ascii_db
    (lit "**Main Dish**: Tacos" ++ [10] ++ lit "**Main Dish**: Pizza")
  = mk_dishes (lit "Pizza") [] [].
Proof. vm_compute. reflexivity. Qed.

End Proofs.

(** * Further properties of the two apps *)

Module Extras.
Import MainApp Spec Proofs.

(** ** [quote] can be decoded *)

Ltac ltb_cases :=
  repeat match goal with
  | |- context [?a <? ?b] => destruct (N.ltb_spec a b)
  | |- context [?a =? ?b] => destruct (N.eqb_spec a b)
  end; try lia.

(** [Some x = Some y] to [x = y] without reducing [x] and [y]. *)
Ltac some_inj H :=
  apply (f_equal (fun o => match o with Some x => x | None => [] end)) in H;
  cbv beta iota in H; subst.

(** The bytes of [utf8_encode c] in terms of the base-64 digits of [c]. *)
Ltac utf8_prep c H :=
  assert (D2 : c / 4096 = c / 64 / 64) by (rewrite N.Div0.div_div; reflexivity);
  assert (D3 : c / 262144 = c / 64 / 64 / 64) by (rewrite !N.Div0.div_div; reflexivity);
  rewrite D2, D3 in H; clear D2 D3;
  pose proof (N.div_mod c 64 ltac:(lia)) as E1; pose proof (N.mod_lt c 64 ltac:(lia)) as L1;
  pose proof (N.div_mod (c / 64) 64 ltac:(lia)) as E2;
  pose proof (N.mod_lt (c / 64) 64 ltac:(lia)) as L2;
  pose proof (N.div_mod (c / 64 / 64) 64 ltac:(lia)) as E3;
  pose proof (N.mod_lt (c / 64 / 64) 64 ltac:(lia)) as L3;
  set (q1 := c / 64) in *; set (q2 := q1 / 64) in *; set (q3 := q2 / 64) in *;
  set (r0 := c mod 64) in *; set (r1 := q1 mod 64) in *; set (r2 := q2 mod 64) in *;
  clearbody q1 q2 q3 r0 r1 r2.

Lemma utf8_decode_1 b0 r : b0 < 128 -> utf8_decode (b0 :: r) = b0 :: utf8_decode r.
Proof. intros H. simpl. destruct (N.ltb_spec b0 128); [reflexivity|lia]. Qed.

Lemma utf8_decode_2 b0 b1 r :
  128 <= b0 -> b0 < 224 ->
  utf8_decode (b0 :: b1 :: r) = ((b0 - 192) * 64 + (b1 - 128)) :: utf8_decode r.
Proof.
  intros H1 H2. simpl.
  destruct (N.ltb_spec b0 128); [lia|]. destruct (N.ltb_spec b0 224); [reflexivity|lia].
Qed.

Lemma utf8_decode_3 b0 b1 b2 r :
  224 <= b0 -> b0 < 240 ->
  utf8_decode (b0 :: b1 :: b2 :: r)
  = ((b0 - 224) * 4096 + (b1 - 128) * 64 + (b2 - 128)) :: utf8_decode r.
Proof.
  intros H1 H2. simpl.
  destruct (N.ltb_spec b0 128); [lia|]. destruct (N.ltb_spec b0 224); [lia|].
  destruct (N.ltb_spec b0 240); [reflexivity|lia].
Qed.

Lemma utf8_decode_4 b0 b1 b2 b3 r :
  240 <= b0 ->
  utf8_decode (b0 :: b1 :: b2 :: b3 :: r)
  = ((b0 - 240) * 262144 + (b1 - 128) * 4096 + (b2 - 128) * 64 + (b3 - 128)) :: utf8_decode r.
Proof.
  intros H1. simpl.
  destruct (N.ltb_spec b0 128); [lia|]. destruct (N.ltb_spec b0 224); [lia|].
  destruct (N.ltb_spec b0 240); [lia|reflexivity].
Qed.

Lemma utf8_decode_encode c b rest :
  utf8_encode c = Some b -> utf8_decode (b ++ rest) = c :: utf8_decode rest.
Proof.
  unfold utf8_encode. intros H.
  utf8_prep c H.
  destruct (N.ltb_spec c 128).
  { some_inj H. apply utf8_decode_1. exact H0. }
  destruct (N.ltb_spec c 2048).
  { some_inj H. rewrite <- ?app_comm_cons, ?app_nil_l. rewrite utf8_decode_2 by lia. f_equal. lia. }
  destruct (N.ltb_spec c 65536).
  { destruct ((55296 <=? c) && (c <=? 57343)); [discriminate|]. some_inj H.
    rewrite <- ?app_comm_cons, ?app_nil_l. rewrite utf8_decode_3 by lia. f_equal. lia. }
  destruct (N.ltb_spec c 1114112); [|discriminate]. some_inj H.
  rewrite <- ?app_comm_cons, ?app_nil_l. rewrite utf8_decode_4 by lia. f_equal. lia.
Qed.

Lemma utf8_encode_bytes c b : utf8_encode c = Some b -> Forall (fun x => x < 256) b.
Proof.
  unfold utf8_encode. intros H. utf8_prep c H.
  destruct (N.ltb_spec c 128).
  { some_inj H. repeat constructor. lia. }
  destruct (N.ltb_spec c 2048).
  { some_inj H. repeat apply Forall_cons; try apply Forall_nil; lia. }
  destruct (N.ltb_spec c 65536).
  { destruct ((55296 <=? c) && (c <=? 57343)); [discriminate|]. some_inj H.
    repeat apply Forall_cons; try apply Forall_nil; lia. }
  destruct (N.ltb_spec c 1114112); [|discriminate]. some_inj H.
  repeat apply Forall_cons; try apply Forall_nil; lia.
Qed.

(** A character other than ['/'] never yields the byte ['/']. *)
Lemma utf8_encode_no_slash c b : utf8_encode c = Some b -> c <> 47 -> ~ In 47 b.
Proof.
  unfold utf8_encode. intros H Hc. utf8_prep c H.
  destruct (N.ltb_spec c 128).
  { some_inj H. cbn [In]. intuition. }
  destruct (N.ltb_spec c 2048).
  { some_inj H. cbn [In]. lia. }
  destruct (N.ltb_spec c 65536).
  { destruct ((55296 <=? c) && (c <=? 57343)); [discriminate|]. some_inj H. cbn [In]. lia. }
  destruct (N.ltb_spec c 1114112); [|discriminate]. some_inj H. cbn [In]. lia.
Qed.

Lemma utf8_encode_all_spec s bs :
  utf8_encode_all s = Some bs ->
  utf8_decode bs = s /\ Forall (fun x => x < 256) bs /\ (~ In 47 s -> ~ In 47 bs).
Proof.
  revert bs. induction s as [|c s IH]; intros bs H; simpl in H.
  - injection H as <-. simpl. repeat split; [constructor|tauto].
  - destruct (utf8_encode c) as [b|] eqn:Eb; [|discriminate].
    destruct (utf8_encode_all s) as [bs'|]; [|discriminate]. injection H as <-.
    destruct (IH bs' eq_refl) as [Hd [Hb Hs]]. repeat split.
    + rewrite (utf8_decode_encode c b bs' Eb), Hd. reflexivity.
    + apply Forall_app. split; [exact (utf8_encode_bytes c b Eb)|exact Hb].
    + intros Hn Hin. apply in_app_or in Hin as [Hin|Hin].
      * apply (utf8_encode_no_slash c b Eb); [intros ->; apply Hn; left; reflexivity|exact Hin].
      * apply Hs; [intros Hin'; apply Hn; right; exact Hin'|exact Hin].
Qed.

Lemma unhex_hex n : n < 16 -> unhex (hex_digit n) = n.
Proof. intros H. unfold unhex, hex_digit. ltb_cases. Qed.

Lemma always_safe_37 : always_safe 37 = false.
Proof. reflexivity. Qed.

Lemma hex_digit_safe n : n < 16 -> always_safe (hex_digit n) = true.
Proof.
  intros H. unfold always_safe, hex_digit.
  destruct (N.ltb_spec n 10);
  repeat rewrite ?orb_true_iff, ?andb_true_iff, ?N.leb_le, ?N.eqb_eq; lia.
Qed.

Lemma percent_decode_quote bs :
  Forall (fun x => x < 256) bs -> percent_decode (flat_map quote_byte bs) = bs.
Proof.
  induction 1 as [|b bs Hb _ IH]; [reflexivity|]. cbn [flat_map]. unfold quote_byte at 1.
  destruct (always_safe b || (b =? 47)) eqn:Es.
  - cbn [app percent_decode]. destruct (N.eqb_spec b 37) as [->|]; [discriminate|].
    rewrite IH. reflexivity.
  - cbn [app percent_decode]. rewrite N.eqb_refl. cbv beta iota. f_equal; [|exact IH].
    pose proof (N.div_mod b 16 ltac:(lia)). pose proof (N.mod_lt b 16 ltac:(lia)).
    rewrite !unhex_hex; [lia|lia|]. apply N.div_lt_upper_bound; lia.
Qed.

Lemma quote_decode s q : quote s = Some q -> utf8_decode (percent_decode q) = s.
Proof.
  destruct s as [|c s']; [intros H; injection H as <-; reflexivity|].
  change (quote (c :: s')) with (option_map (flat_map quote_byte) (utf8_encode_all (c :: s'))).
  destruct (utf8_encode_all (c :: s')) as [bs|] eqn:E; [|discriminate].
  intros H. injection H as <-. destruct (utf8_encode_all_spec _ _ E) as [Hd [Hb _]].
  rewrite percent_decode_quote by exact Hb. exact Hd.
Qed.

Lemma quote_inj s1 s2 q : quote s1 = Some q -> quote s2 = Some q -> s1 = s2.
Proof.
  intros H1 H2. rewrite <- (quote_decode s1 q H1), <- (quote_decode s2 q H2). reflexivity.
Qed.

Lemma quote_chars s q :
  quote s = Some q -> forallb url_char q = true /\ (~ In 47 s -> forallb url_char_noslash q = true).
Proof.
  destruct s as [|c s']; [intros H; injection H as <-; split; reflexivity|].
  change (quote (c :: s')) with (option_map (flat_map quote_byte) (utf8_encode_all (c :: s'))).
  destruct (utf8_encode_all (c :: s')) as [bs|] eqn:E; [|discriminate].
  intros H. injection H as <-. destruct (utf8_encode_all_spec _ _ E) as [_ [Hb Hs]].
  assert (Hq : forall b, b < 256 -> forallb url_char (quote_byte b) = true /\
                                 (b <> 47 -> forallb url_char_noslash (quote_byte b) = true)).
  { intros b Hlt. unfold quote_byte, url_char, url_char_noslash.
    destruct (always_safe b) eqn:Ea; simpl.
    - rewrite Ea. simpl. split; reflexivity.
    - destruct (N.eqb_spec b 47) as [->|Hn]; simpl.
      + split; [reflexivity|]. intros []; reflexivity.
      + pose proof (N.mod_lt b 16 ltac:(lia)).
        assert (b / 16 < 16) by (apply N.div_lt_upper_bound; lia).
        rewrite !hex_digit_safe by assumption. split; [reflexivity|]. intros _. reflexivity. }
  clear E. split.
  - clear Hs. induction Hb as [|b bs Hb' _ IH]; [reflexivity|]. simpl. rewrite forallb_app.
    rewrite (proj1 (Hq b Hb')), IH. reflexivity.
  - intros Hn. specialize (Hs Hn). clear Hn.
    induction Hb as [|b bs Hb' _ IH]; [reflexivity|]. simpl. rewrite forallb_app.
    rewrite (proj2 (Hq b Hb')), IH; [reflexivity| |].
    + intros Hin. apply Hs. right. exact Hin.
    + intros ->. apply Hs. left. reflexivity.
Qed.

Lemma hex_digit_hex n : n < 16 -> is_hex (hex_digit n) = true.
Proof.
  intros H. unfold is_hex, hex_digit.
  destruct (N.ltb_spec n 10);
  repeat rewrite ?orb_true_iff, ?andb_true_iff, ?N.leb_le; lia.
Qed.

Lemma quote_wf s q : quote s = Some q -> wf_escapes q = true.
Proof.
  destruct s as [|c s']; [intros H; injection H as <-; reflexivity|].
  change (quote (c :: s')) with (option_map (flat_map quote_byte) (utf8_encode_all (c :: s'))).
  destruct (utf8_encode_all (c :: s')) as [bs|] eqn:E; [|discriminate].
  intros H. injection H as <-. destruct (utf8_encode_all_spec _ _ E) as [_ [Hb _]].
  clear E. induction Hb as [|b bs Hb' _ IH]; [reflexivity|].
  cbn [flat_map]. unfold quote_byte at 1.
  destruct (always_safe b || (b =? 47)) eqn:Ea.
  - assert (Hn : (b =? 37) = false).
    { destruct (N.eqb_spec b 37) as [->|]; [|reflexivity].
      rewrite always_safe_37 in Ea. discriminate Ea. }
    rewrite <- app_comm_cons, app_nil_l. cbn [wf_escapes]. rewrite Hn.
    unfold url_char. rewrite Ea, IH. reflexivity.
  - pose proof (N.mod_lt b 16 ltac:(lia)).
    assert (b / 16 < 16) by (apply N.div_lt_upper_bound; lia).
    rewrite <- !app_comm_cons, app_nil_l. cbn [wf_escapes]. rewrite N.eqb_refl.
    rewrite !hex_digit_hex by assumption. exact IH.
Qed.

Lemma utf8_encode_none c : utf8_encode c = None <-> ~ scalar c.
Proof.
  split.
  - intros H Hs. destruct (utf8_encode_scalar c Hs) as [b Hb]. congruence.
  - intros Hn. unfold utf8_encode.
    destruct (N.ltb_spec c 128); [exfalso; apply Hn; split; lia|].
    destruct (N.ltb_spec c 2048); [exfalso; apply Hn; split; lia|].
    destruct (N.ltb_spec c 65536).
    + destruct (N.leb_spec 55296 c); destruct (N.leb_spec c 57343); simpl; try reflexivity;
        exfalso; apply Hn; split; lia.
    + destruct (N.ltb_spec c 1114112); [exfalso; apply Hn; split; lia|reflexivity].
Qed.

Lemma utf8_encode_all_none s : utf8_encode_all s = None <-> Exists (fun c => ~ scalar c) s.
Proof.
  induction s as [|c s IH]; simpl.
  - split; [discriminate|intros H; inversion H].
  - rewrite Exists_cons, <- utf8_encode_none, <- IH.
    destruct (utf8_encode c), (utf8_encode_all s); intuition discriminate.
Qed.

(** [get_youtube_link]: the query of the link is made of unreserved
    characters, ['/'] and ['%'] only, every ['%'] opening an escape ['%XX']
    of two upper-case hex digits, and it decodes back to the dish name
    followed by " recipe"; so no two dish names share a YouTube link. *)
Theorem get_youtube_link_decodes (d l : pystr) :
  get_youtube_link d = Some l ->
  exists q, l = url_youtube ++ q /\ forallb url_char q = true /\ wf_escapes q = true /\
            utf8_decode (percent_decode q) = d ++ lit " recipe".
Proof.
  unfold get_youtube_link. destruct (quote (d ++ lit " recipe")) as [q|] eqn:E; [|discriminate].
  intros H. injection H as <-. exists q. split; [reflexivity|]. split; [|split].
  - exact (proj1 (quote_chars _ _ E)).
  - exact (quote_wf _ _ E).
  - exact (quote_decode _ _ E).
Qed.

Lemma get_youtube_link_decodes_witness :
  get_youtube_link (lit "Pad Thai") = Some (url_youtube ++ lit "Pad%20Thai%20recipe") /\
  exists q, url_youtube ++ lit "Pad%20Thai%20recipe" = url_youtube ++ q /\
            forallb url_char q = true /\ wf_escapes q = true /\
            utf8_decode (percent_decode q) = lit "Pad Thai" ++ lit " recipe".
Proof.
  split; [vm_compute; reflexivity|].
  apply (get_youtube_link_decodes (lit "Pad Thai")). vm_compute. reflexivity.
Defined.

Lemma get_youtube_link_injective_core (d1 d2 l : pystr) :
  get_youtube_link d1 = Some l -> get_youtube_link d2 = Some l -> d1 = d2.
Proof.
  unfold get_youtube_link.
  destruct (quote (d1 ++ lit " recipe")) as [q1|] eqn:E1; [|discriminate].
  destruct (quote (d2 ++ lit " recipe")) as [q2|] eqn:E2; [|discriminate].
  intros H1 H2. rewrite <- H2 in H1. some_inj H1. apply app_inv_head in H1. subst q2.
  apply (app_inv_tail (lit " recipe")). exact (quote_inj _ _ _ E1 E2).
Qed.

Section order_links.
Context {U : UnicodeDB}.

(** [get_order_links]: with ['/'] not alphanumeric, as in Python, the
    encoded part of the three links has no ['/'] (one path segment in the
    Lieferando URL) and no character but unreserved ones and ['%'], and it
    decodes back to the cleaned dish name. *)
Theorem get_order_links_encoded (H47 : isalnum 47 = false) (d : pystr) links :
  get_order_links d = Some links ->
  exists q, links = [(key_uber, url_uber ++ q); (key_lieferando, url_lieferando ++ q);
                     (key_just_eat, url_just_eat ++ q)] /\
            forallb url_char_noslash q = true /\
            utf8_decode (percent_decode q) = clean_dish_name d.
Proof.
  unfold get_order_links. cbv zeta.
  destruct (quote (clean_dish_name d)) as [q|] eqn:E; [|discriminate].
  intros H. injection H as <-. exists q. split; [reflexivity|]. split.
  - apply (proj2 (quote_chars _ _ E)). intros Hin.
    pose proof (keep_clean d) as Hk. rewrite forallb_forall in Hk.
    specialize (Hk 47 Hin). unfold keep, is_word in Hk. rewrite H47 in Hk. discriminate.
  - exact (quote_decode _ _ E).
Qed.

(** [get_order_links]: two dish names get the same order links exactly
    when they clean to the same name. *)
Theorem get_order_links_same (d1 d2 : pystr) links :
  get_order_links d1 = Some links ->
  (get_order_links d2 = Some links <-> clean_dish_name d1 = clean_dish_name d2).
Proof.
  unfold get_order_links. cbv zeta.
  destruct (quote (clean_dish_name d1)) as [q1|] eqn:E1; [|discriminate].
  intros H1. some_inj H1. split.
  - destruct (quote (clean_dish_name d2)) as [q2|] eqn:E2; [|discriminate].
    intros H. some_inj H. apply (f_equal (fun l => snd (hd (key_uber, []) l))) in H.
    cbn [hd snd] in H. apply app_inv_head in H. subst q2.
    exact (quote_inj _ _ _ E1 E2).
  - intros <-. rewrite E1. reflexivity.
Qed.

End order_links.

Lemma get_order_links_encoded_witness :
  @isalnum ascii_db 47 = false /\
  @get_order_links ascii_db (lit "Fish/Chips") = Some
    [(key_uber, url_uber ++ lit "FishChips"); (key_lieferando, url_lieferando ++ lit "FishChips");
     (key_just_eat, url_just_eat ++ lit "FishChips")] /\
  exists q, [(key_uber, url_uber ++ lit "FishChips"); (key_lieferando, url_lieferando ++ lit "FishChips");
             (key_just_eat, url_just_eat ++ lit "FishChips")]
            = [(key_uber, url_uber ++ q); (key_lieferando, url_lieferando ++ q);
               (key_just_eat, url_just_eat ++ q)] /\
            forallb url_char_noslash q = true /\
            utf8_decode (percent_decode q) = @clean_dish_name ascii_db (lit "Fish/Chips").
Proof.
  split; [reflexivity|]. split; [vm_compute; reflexivity|].
  apply (@get_order_links_encoded ascii_db eq_refl (lit "Fish/Chips")). vm_compute. reflexivity.
Defined.

Lemma get_order_links_same_witness :
  @get_order_links ascii_db (lit "Pizza") = Some
    [(key_uber, url_uber ++ lit "Pizza"); (key_lieferando, url_lieferando ++ lit "Pizza");
     (key_just_eat, url_just_eat ++ lit "Pizza")] /\
  (@get_order_links ascii_db (lit "Romantic Pizza!") = Some
    [(key_uber, url_uber ++ lit "Pizza"); (key_lieferando, url_lieferando ++ lit "Pizza");
     (key_just_eat, url_just_eat ++ lit "Pizza")] <->
   @clean_dish_name ascii_db (lit "Pizza") = @clean_dish_name ascii_db (lit "Romantic Pizza!")).
Proof.
  split; [vm_compute; reflexivity|].
  apply (@get_order_links_same ascii_db (lit "Pizza")). vm_compute. reflexivity.
Defined.

(** ** Genres *)

Definition comma (c : N) : bool := c =? 44.

Lemma py_strip_space n : py_strip (32 :: n) = py_strip n.
Proof. reflexivity. Qed.

Lemma split_on_comma_join n1 ns :
  Forall (fun n => no_sep comma n = true) (n1 :: ns) ->
  split_on comma (py_join [44; 32] (n1 :: ns)) = n1 :: map (cons 32) ns.
Proof.
  revert n1. induction ns as [|n2 ns IH]; intros n1 H; inversion H as [|? ? H1 Hs]; subst.
  - apply split_on_no_sep. exact H1.
  - change (py_join [44; 32] (n1 :: n2 :: ns)) with (n1 ++ 44 :: 32 :: py_join [44; 32] (n2 :: ns)).
    rewrite split_on_app_sep by (exact H1 || reflexivity).
    cbn [split_on]. rewrite (IH n2 Hs). reflexivity.
Qed.

Lemma str_eqb_refl' a : str_eqb a a = true.
Proof. induction a as [|x a IH]; simpl; [reflexivity|]. rewrite N.eqb_refl. exact IH. Qed.

Lemma map_err_json_str (ws : list pystr) : map_err json_str (map JStr ws) = Some ws.
Proof. induction ws as [|w ws IH]; [reflexivity|]. cbn [map map_err]. rewrite IH. reflexivity. Qed.

Lemma py_join_json_str (sep : pystr) (ws : list pystr) :
  py_join_json sep (map JStr ws) = Some (py_join sep ws).
Proof. unfold py_join_json. rewrite map_err_json_str. reflexivity. Qed.

(** [resolve_genres] on a comma-separated id list: each id, stripped, is
    replaced by its value in [genre_map], or kept when [genre_map] lacks
    it, and the values are joined with ", ", which raises when one of them
    is not a [str]. *)
Theorem resolve_genres_ids (genre_map : pystr -> option json) (ids : list pystr) :
  Forall (fun g => no_sep comma g = true) ids ->
  py_join [44] ids <> [] -> py_join [44] ids <> lit "Unknown" ->
  resolve_genres genre_map (py_join [44] ids)
  = py_join_json (lit ", ")
      (map (fun g => dict_get genre_map (py_strip g) (JStr (py_strip g))) ids).
Proof.
  intros Hs Hne Hu. unfold resolve_genres.
  destruct (py_join [44] ids) as [|c t] eqn:Ej; [contradiction|]. simpl is_empty.
  destruct (str_eqb (c :: t) (lit "Unknown")) eqn:Eu.
  { apply str_eqb_true in Eu. contradiction. }
  cbv zeta. simpl orb. rewrite <- Ej. fold comma.
  rewrite split_on_join; [|intros ->; discriminate Ej|reflexivity|exact Hs].
  rewrite map_map. reflexivity.
Qed.

Lemma resolve_genres_ids_witness :
  Forall (fun g => no_sep comma g = true) [lit "28"; lit " 35"; lit "99"] /\
  py_join [44] [lit "28"; lit " 35"; lit "99"] <> [] /\
  py_join [44] [lit "28"; lit " 35"; lit "99"] <> lit "Unknown" /\
  resolve_genres (fun k => if str_eqb k (lit "28") then Some (JStr (lit "Action")) else None)
    (py_join [44] [lit "28"; lit " 35"; lit "99"]) = Some (lit "Action, 35, 99").
Proof.
  assert (Hs : Forall (fun g => no_sep comma g = true) [lit "28"; lit " 35"; lit "99"])
    by (repeat constructor).
  assert (Hn : py_join [44] [lit "28"; lit " 35"; lit "99"] <> []) by (vm_compute; discriminate).
  assert (Hu : py_join [44] [lit "28"; lit " 35"; lit "99"] <> lit "Unknown")
    by (vm_compute; discriminate).
  split; [exact Hs|]. split; [exact Hn|]. split; [exact Hu|].
  rewrite (resolve_genres_ids _ _ Hs Hn Hu). vm_compute. reflexivity.
Defined.

Lemma resolve_genres_join (genre_map : pystr -> option json) (names : list pystr) :
  Forall (fun n => no_sep comma n = true /\ py_strip n = n /\ genre_map n = None) names ->
  resolve_genres genre_map (py_join (lit ", ") names)
  = Some (if is_empty (py_join (lit ", ") names) then lit "Unknown" else py_join (lit ", ") names).
Proof.
  intros H. unfold resolve_genres.
  destruct (is_empty (py_join (lit ", ") names)) eqn:Ee; [reflexivity|]. simpl orb.
  destruct (str_eqb (py_join (lit ", ") names) (lit "Unknown")) eqn:Eu.
  { apply str_eqb_true in Eu. rewrite Eu. reflexivity. }
  cbv zeta. destruct names as [|n1 ns]; [discriminate|].
  change (lit ", ") with [44; 32]. fold comma.
  rewrite split_on_comma_join by (eapply Forall_impl; [|exact H]; intros n Hn; apply Hn).
  rewrite map_map.
  replace (map _ (n1 :: map (cons 32) ns)) with (map JStr (n1 :: ns)); [apply py_join_json_str|].
  cbn [map]. rewrite map_map.
  apply Forall_cons_iff in H as [[_ [Hs1 Hg1]] Hns].
  unfold dict_get at 1. rewrite Hs1, Hg1. f_equal. clear Ee Eu.
  induction Hns as [|n ns [_ [Hs Hg]] _ IH]; [reflexivity|]. cbn [map].
  rewrite py_strip_space, Hs. unfold dict_get at 1. rewrite Hg. f_equal. exact IH.
Qed.

(** [hybrid_search] applies [resolve_genres] to the genre string
    [search_tmdb] built, which already holds names joined with ", ". When
    no name contains a comma or surrounding whitespace or is itself a key
    of [genre_map], that second pass changes nothing, except that an empty
    genre string becomes "Unknown". *)
Theorem resolve_genres_names (genre_map : pystr -> option json) (names : list pystr) :
  Forall (fun n => no_sep comma n = true /\ py_strip n = n /\ genre_map n = None) names ->
  resolve_genres genre_map (py_join (lit ", ") names)
  = Some (if is_empty (py_join (lit ", ") names) then lit "Unknown" else py_join (lit ", ") names).
Proof. apply resolve_genres_join. Qed.

Lemma resolve_genres_names_witness :
  Forall (fun n => no_sep comma n = true /\ py_strip n = n /\
                   (fun _ : pystr => @None json) n = None) [lit "Action"; lit "Comedy"] /\
  resolve_genres (fun _ => None) (py_join (lit ", ") [lit "Action"; lit "Comedy"])
  = Some (lit "Action, Comedy").
Proof.
  assert (H : Forall (fun n => no_sep comma n = true /\ py_strip n = n /\
                   (fun _ : pystr => @None json) n = None) [lit "Action"; lit "Comedy"])
    by (repeat constructor).
  split; [exact H|]. rewrite (resolve_genres_names _ _ H). vm_compute. reflexivity.
Defined.

(** ** Recipes *)

Lemma fold_obind_none {A B} (f : A -> B -> option A) (l : list B) :
  fold_left (fun acc i => let? a := acc in f a i) l None = None.
Proof. induction l; simpl; auto. Qed.

Lemma fold_obind_hit {A B} (f : A -> B -> option A) (x : B) (l : list B) (o : option A) :
  (forall a, f a x = None) -> In x l ->
  fold_left (fun acc i => let? a := acc in f a i) l o = None.
Proof.
  intros Hx. revert o. induction l as [|y l IH]; intros o Hin; [destruct Hin|].
  destruct Hin as [<-|Hin]; simpl.
  - destruct o; simpl; [rewrite Hx|]; apply fold_obind_none.
  - apply IH; auto.
Qed.

Lemma fold_obind_all {A B} (f : A -> B -> option A) (F : B -> A -> A) (P : B -> Prop)
    (l : list B) (a : A) :
  (forall x a, P x -> f a x = Some (F x a)) -> Forall P l ->
  fold_left (fun acc i => let? a := acc in f a i) l (Some a)
  = Some (fold_left (fun a x => F x a) l a).
Proof.
  intros Hf Hl. revert a. induction Hl as [|x l Hx Hl IH]; intros a; simpl; [reflexivity|].
  rewrite Hf by exact Hx. apply IH.
Qed.

Lemma in_ingredient_indices (i : N) : In i ingredient_indices <-> (1 <= i <= 20)%N.
Proof.
  unfold ingredient_indices. rewrite in_map_iff. split.
  - intros [k [<- Hk]]. apply in_seq in Hk. lia.
  - intros H. exists (N.to_nat i). rewrite N2Nat.id, in_seq. split; [reflexivity|lia].
Qed.

Lemma py_strip_nil : py_strip [] = [].
Proof. reflexivity. Qed.

(** [f"{...}"] of a string-valued field, [""] when the key is missing. *)
Definition str_field (kvs : list (pystr * json)) (k : pystr) : pystr :=
  match obj_get kvs k with Some (JStr s) => s | _ => [] end.

(** The slot [k] is missing or holds a string. *)
Definition slot_is_str (kvs : list (pystr * json)) (k : pystr) : bool :=
  match obj_get kvs k with None | Some (JStr _) => true | Some _ => false end.

(** The ingredient line index [i] contributes, if any. *)
Definition ingredient_line (kvs : list (pystr * json)) (i : N) : list pystr :=
  let g := py_strip (str_field kvs (ingredient_key i)) in
  if is_empty g then [] else [py_strip (str_field kvs (measure_key i)) ++ [32] ++ g].

Lemma ingredient_step_str (kvs : list (pystr * json)) (acc : list pystr) (i : N) :
  (forall k v, (k = ingredient_key i \/ k = measure_key i) -> obj_get kvs k = Some v ->
     exists s, v = JStr s) ->
  ingredient_step (JObj kvs) acc i = Some (acc ++ ingredient_line kvs i).
Proof.
  intros Hs. unfold ingredient_step, ingredient_line, str_field. cbn [py_get obind].
  destruct (obj_get kvs (ingredient_key i)) as [vg|] eqn:Eg.
  2:{ rewrite py_strip_nil, app_nil_r. reflexivity. }
  destruct (Hs _ _ (or_introl eq_refl) Eg) as [g ->].
  destruct (obj_get kvs (measure_key i)) as [vm|] eqn:Em.
  1: destruct (Hs _ _ (or_intror eq_refl) Em) as [m ->].
  all: cbn [truthy json_strip obind]; destruct g as [|c g];
    [rewrite py_strip_nil; cbn [is_empty negb]; rewrite app_nil_r; reflexivity|];
    cbn [is_empty negb]; destruct (is_empty (py_strip (c :: g))); cbn [obind];
    rewrite ?app_nil_r; reflexivity.
Qed.

Lemma ingredient_line_length (kvs : list (pystr * json)) (i : N) :
  (length (ingredient_line kvs i) <= 1)%nat.
Proof. unfold ingredient_line. destruct (is_empty _); simpl; lia. Qed.

Lemma flat_map_length_le {A B} (f : A -> list B) (l : list A) :
  (forall x, length (f x) <= 1)%nat -> (length (flat_map f l) <= length l)%nat.
Proof.
  intros Hf. induction l as [|x l IH]; simpl; [lia|].
  rewrite length_app. specialize (Hf x). lia.
Qed.

Lemma fold_app_flat_map {A B} (f : A -> list B) (l : list A) (acc : list B) :
  fold_left (fun a x => a ++ f x) l acc = acc ++ flat_map f l.
Proof.
  revert acc. induction l as [|x l IH]; intros acc; simpl; [rewrite app_nil_r; reflexivity|].
  rewrite IH, app_assoc. reflexivity.
Qed.

(** [search_recipe] returns [None] as soon as one of the twenty ingredient
    slots of the first meal holds a non-blank string while its measure is
    present but not a string (for instance [null]): [measure.strip()] raises
    and the handler returns [None]. *)
Theorem search_recipe_bad_measure (api : pystr -> option json) (d : pystr)
    (dkvs kvs : list (pystr * json)) (rest : list json) (i : N) (g : pystr) (v : json) :
  api d = Some (JObj dkvs) ->
  obj_get dkvs (lit "meals") = Some (JArr (JObj kvs :: rest)) ->
  (1 <= i <= 20)%N ->
  obj_get kvs (ingredient_key i) = Some (JStr g) -> py_strip g <> [] ->
  obj_get kvs (measure_key i) = Some v -> (forall s, v <> JStr s) ->
  search_recipe api d = None.
Proof.
  intros Ha Hm Hi Hg Hgs Hv Hvs. unfold search_recipe. rewrite Ha. cbn [obind py_get].
  rewrite Hm. cbn [truthy negb py_index0 obind].
  replace (ingredients_of (JObj kvs)) with (@None (list pystr)); [reflexivity|].
  symmetry. unfold ingredients_of. apply (fold_obind_hit (ingredient_step (JObj kvs)) i).
  2: apply in_ingredient_indices; exact Hi.
  intros a. unfold ingredient_step. cbn [py_get obind]. rewrite Hg, Hv.
  destruct g as [|c g]; [contradiction|]. cbn [truthy is_empty negb json_strip obind].
  destruct (is_empty (py_strip (c :: g))) eqn:E.
  - destruct (py_strip (c :: g)); [contradiction|discriminate].
  - destruct v; try reflexivity. exfalso. exact (Hvs s eq_refl).
Qed.

(** When every ingredient and measure slot of the first meal that is present
    holds a string, [search_recipe] succeeds, and its ingredient list has
    one line ["<measure> <ingredient>"] (both stripped) for each slot 1..20,
    in order, whose ingredient is not blank; so at most twenty lines. *)
Theorem search_recipe_ingredients (api : pystr -> option json) (d : pystr)
    (dkvs kvs : list (pystr * json)) (rest : list json) :
  api d = Some (JObj dkvs) ->
  obj_get dkvs (lit "meals") = Some (JArr (JObj kvs :: rest)) ->
  forallb (fun i => slot_is_str kvs (ingredient_key i) && slot_is_str kvs (measure_key i))
    ingredient_indices = true ->
  exists r, search_recipe api d = Some r /\
    rd_ingredients r = flat_map (ingredient_line kvs) ingredient_indices /\
    (length (rd_ingredients r) <= 20)%nat.
Proof.
  intros Ha Hm Hs. unfold search_recipe. rewrite Ha. cbn [obind py_get].
  rewrite Hm. cbn [truthy negb py_index0 obind].
  assert (Hi : ingredients_of (JObj kvs) = Some (flat_map (ingredient_line kvs) ingredient_indices)).
  { unfold ingredients_of.
    rewrite (fold_obind_all (ingredient_step (JObj kvs)) (fun i a => a ++ ingredient_line kvs i)
               (fun i => slot_is_str kvs (ingredient_key i) && slot_is_str kvs (measure_key i) = true)).
    - rewrite fold_app_flat_map. reflexivity.
    - intros i a Hi. apply ingredient_step_str. intros k v Hk Hv.
      apply andb_prop in Hi as [H1 H2]. unfold slot_is_str in H1, H2.
      destruct Hk as [->| ->]; rewrite Hv in *; destruct v; try discriminate; eexists; reflexivity.
    - apply Forall_forall. intros i Hi. apply forallb_forall with (x := i) in Hs; auto. }
  rewrite Hi. cbn [obind py_get]. eexists. split; [reflexivity|]. split; [reflexivity|].
  cbn [rd_ingredients]. etransitivity; [apply flat_map_length_le, ingredient_line_length|].
  unfold ingredient_indices. rewrite length_map, length_seq. lia.
Qed.

Definition meal_api (meal : list (pystr * json)) : pystr -> option json :=
  fun _ => Some (JObj [(lit "meals", JArr [JObj meal])]).

Definition meal_salt_null : list (pystr * json) :=
  [(lit "strMeal", JStr (lit "Soup")); (lit "strIngredient1", JStr (lit "Salt"));
   (lit "strMeasure1", JNull)].

Definition meal_two : list (pystr * json) :=
  [(lit "strMeal", JStr (lit "Soup")); (lit "strIngredient1", JStr (lit " Salt "));
   (lit "strMeasure1", JStr (lit "1 tsp")); (lit "strIngredient2", JStr (lit "  "));
   (lit "strMeasure2", JStr (lit "2 cups")); (lit "strIngredient3", JStr (lit "Water"))].

Lemma search_recipe_bad_measure_witness :
  search_recipe (meal_api meal_salt_null) (lit "Soup") = None.
Proof.
  apply (search_recipe_bad_measure (meal_api meal_salt_null) (lit "Soup")
           [(lit "meals", JArr [JObj meal_salt_null])] meal_salt_null [] 1 (lit "Salt") JNull).
  - reflexivity.
  - vm_compute. reflexivity.
  - lia.
  - vm_compute. reflexivity.
  - vm_compute. discriminate.
  - vm_compute. reflexivity.
  - intros s. discriminate.
Defined.

Lemma search_recipe_ingredients_witness :
  exists r, search_recipe (meal_api meal_two) (lit "Soup") = Some r /\
    rd_ingredients r = flat_map (ingredient_line meal_two) ingredient_indices /\
    (length (rd_ingredients r) <= 20)%nat.
Proof.
  apply (search_recipe_ingredients (meal_api meal_two) (lit "Soup")
           [(lit "meals", JArr [JObj meal_two])] meal_two []).
  - reflexivity.
  - vm_compute. reflexivity.
  - vm_compute. reflexivity.
Defined.

(** ** Movies *)

Ltac opt_as H x E :=
  match type of H with
  | obind ?m _ = _ => destruct m as [x|] eqn:E; cbn [obind] in H; [|discriminate H]
  end.

Ltac opt_all H :=
  repeat match type of H with
  | obind ?m _ = _ => let x := fresh "x" in let E := fresh "E" in opt_as H x E
  end.

Lemma map_err_in {A B} (f : A -> option B) (l : list A) (l' : list B) (y : B) :
  map_err f l = Some l' -> In y l' -> exists x, In x l /\ f x = Some y.
Proof.
  revert l'. induction l as [|x l IH]; intros l' H Hy; cbn [map_err] in H.
  - injection H as <-. destruct Hy.
  - opt_as H y' Ey. opt_as H ys Eys. injection H as <-. destruct Hy as [<-|Hy].
    + exists x. split; [left; reflexivity|exact Ey].
    + destruct (IH ys eq_refl Hy) as [x' [Hx Hf]]. exists x'. split; [right; exact Hx|exact Hf].
Qed.

Lemma map_err_forall2 {A B} (f : A -> option B) (l : list A) :
  (forall x, In x l -> f x <> None) ->
  exists l', map_err f l = Some l' /\ Forall2 (fun x y => f x = Some y) l l'.
Proof.
  induction l as [|x l IH]; intros H.
  - exists []. split; [reflexivity|constructor].
  - destruct (f x) as [y|] eqn:Ey; [|exfalso; apply (H x); [left; reflexivity|exact Ey]].
    destruct IH as [l' [E F]]; [intros z Hz; apply H; right; exact Hz|].
    exists (y :: l'). cbn [map_err]. rewrite Ey, E. split; [reflexivity|constructor; assumption].
Qed.

Lemma map_err_ints (gm : pystr -> option json) (zs : list Z) :
  map_err (genre_lookup gm) (map JInt zs) = Some (repeat (JStr (lit "Unknown")) (length zs)).
Proof. induction zs as [|z zs IH]; [reflexivity|]. cbn [map map_err]. rewrite IH. reflexivity. Qed.

Lemma py_join_json_repeat (sep w : pystr) (k : nat) :
  py_join_json sep (repeat (JStr w) k) = Some (py_join sep (repeat w k)).
Proof. rewrite <- py_join_json_str, map_repeat. reflexivity. Qed.

Lemma firstn_short {A} (k : nat) (l : list A) :
  (length (firstn k l) < k)%nat -> firstn k l = l.
Proof. intros H. rewrite length_firstn in H. apply firstn_all2. lia. Qed.

Lemma nodup_map_firstn {A B} (f : A -> B) (k : nat) (l : list A) :
  NoDup (map f l) -> NoDup (map f (firstn k l)).
Proof.
  revert k. induction l as [|x l IH]; intros k H; destruct k; cbn [firstn map];
    [constructor|constructor|constructor|].
  inversion_clear H as [|? ? Hn Hd]. constructor; [|apply IH; exact Hd].
  intros Hin. apply Hn. rewrite <- (firstn_skipn k l), map_app. apply in_or_app. left. exact Hin.
Qed.

Lemma py_take_firstn {A} (l : list A) (n : Z) : exists k, py_take l n = firstn k l /\
  ((0 <= n)%Z -> k = Z.to_nat n).
Proof.
  unfold py_take. destruct (0 <=? n)%Z eqn:E.
  - exists (Z.to_nat n). split; reflexivity.
  - exists (length l - Z.to_nat (- n))%nat. split; [reflexivity|]. intros H.
    apply Z.leb_gt in E. lia.
Qed.

Section tmdb.
Context (gm : pystr -> option json) (py_int : pystr -> option Z).

Lemma tmdb_loop_len (n ymin ymax : Z) (fy : bool) (items : list json) (movies r : list movie) :
  (movies = [] \/ (Z.of_nat (length movies) < n)%Z) ->
  tmdb_loop gm py_int n ymin ymax fy items movies = Some r ->
  (Z.of_nat (length r) <= Z.max 1 n)%Z.
Proof.
  revert movies. induction items as [|it items IH]; intros movies Hm H; cbn [tmdb_loop] in H.
  - injection H as <-. destruct Hm as [->|Hm]; cbn [length]; lia.
  - opt_as H o Eo. destruct o as [|m].
    + exact (IH _ Hm H).
    + destruct (n <=? Z.of_nat (length (movies ++ [m])))%Z eqn:Eb.
      * injection H as <-. apply Z.leb_le in Eb. rewrite length_app in *. cbn [length] in *.
        destruct Hm as [->|Hm]; cbn [length] in *; lia.
      * apply Z.leb_gt in Eb. exact (IH _ (or_intror Eb) H).
Qed.

Lemma tmdb_loop_from (n ymin ymax : Z) (fy : bool) (items : list json) (movies r : list movie) :
  tmdb_loop gm py_int n ymin ymax fy items movies = Some r ->
  forall m, In m r -> In m movies \/
    exists it, In it items /\ tmdb_item gm py_int ymin ymax fy it = Some (Keep m).
Proof.
  revert movies. induction items as [|it items IH]; intros movies H m Hm; cbn [tmdb_loop] in H.
  - injection H as <-. left. exact Hm.
  - opt_as H o Eo. destruct o as [|m'].
    + destruct (IH _ H m Hm) as [Hm'|[it' [Hi Ht]]]; [left; exact Hm'|].
      right. exists it'. split; [right; exact Hi|exact Ht].
    + assert (Hnew : In m (movies ++ [m']) -> In m movies \/
        exists it0, In it0 (it :: items) /\ tmdb_item gm py_int ymin ymax fy it0 = Some (Keep m)).
      { intros Hm'. apply in_app_or in Hm' as [Hm'|[<-|[]]]; [left; exact Hm'|].
        right. exists it. split; [left; reflexivity|exact Eo]. }
      destruct (n <=? Z.of_nat (length (movies ++ [m'])))%Z.
      * injection H as <-. exact (Hnew Hm).
      * destruct (IH _ H m Hm) as [Hm'|[it' [Hi Ht]]]; [exact (Hnew Hm')|].
        right. exists it'. split; [right; exact Hi|exact Ht].
Qed.

Lemma search_tmdb_from (api : pystr -> option json) (q : pystr) (n ymin ymax : Z) (fy : bool)
    (m : movie) :
  In m (search_tmdb gm py_int api q n ymin ymax fy) ->
  exists d results items it, api q = Some d /\ py_get d (lit "results") (JArr []) = Some results /\
    py_iter results = Some items /\ In it items /\
    tmdb_item gm py_int ymin ymax fy it = Some (Keep m).
Proof.
  unfold search_tmdb. intros Hm.
  destruct (let? data := api q in _) as [ms|] eqn:E; [|destruct Hm].
  opt_as E d Ed. opt_as E results Er. opt_as E items Ei.
  destruct (tmdb_loop_from _ _ _ _ _ _ _ E m Hm) as [[]|[it [Hi Ht]]].
  exists d, results, items, it. repeat split; assumption.
Qed.

Lemma tmdb_item_year (ymin ymax : Z) (it : json) (m : movie) :
  tmdb_item gm py_int ymin ymax true it = Some (Keep m) ->
  exists ys, m_year m = JStr ys /\
    (ys = lit "Unknown" \/ py_int ys = None \/
     exists y, py_int ys = Some y /\ (ymin <= y <= ymax)%Z).
Proof.
  unfold tmdb_item. intros H.
  opt_as H rd Erd. opt_as H ys Eys. opt_as H sk Esk.
  destruct sk; cbn [obind] in H; [discriminate H|].
  opt_all H. injection H as <-. cbn [m_year]. cbn [andb] in Esk.
  destruct (json_ne_str ys (lit "Unknown")) eqn:Ene.
  - destruct ys as [| | | |ys| |]; try discriminate Esk. exists ys. split; [reflexivity|].
    destruct (py_int ys) as [y|] eqn:Ey.
    + injection Esk as Esk. apply orb_false_iff in Esk as [Hlo Hhi].
      apply Z.ltb_ge in Hlo, Hhi. right. right. exists y. split; [reflexivity|lia].
    + right. left. reflexivity.
  - destruct ys as [| | | |ys| |]; try discriminate Ene. exists ys. split; [reflexivity|].
    left. cbn [json_ne_str] in Ene. apply negb_false_iff, str_eqb_true in Ene. exact Ene.
Qed.

Lemma tmdb_item_int_genres (ymin ymax : Z) (fy : bool) (kvs : list (pystr * json))
    (zs : list Z) (m : movie) :
  (obj_get kvs (lit "genre_ids") = None \/ obj_get kvs (lit "genre_ids") = Some (JArr (map JInt zs))) ->
  tmdb_item gm py_int ymin ymax fy (JObj kvs) = Some (Keep m) ->
  exists k, m_genre m = JStr (py_join (lit ", ") (repeat (lit "Unknown") k)).
Proof.
  intros Hg H. unfold tmdb_item in H.
  opt_as H rd Erd. opt_as H ys Eys. opt_as H sk Esk.
  destruct sk; cbn [obind] in H; [discriminate H|].
  opt_as H gids Eg. opt_as H gl El. opt_as H names En. opt_as H gn Egn.
  opt_all H. injection H as <-. cbn [m_genre]. cbn [py_get] in Eg.
  destruct Hg as [Hg|Hg]; rewrite Hg in Eg; injection Eg as <-; cbn [py_iter] in El;
    injection El as <-.
  - injection En as <-. injection Egn as <-. exists O. reflexivity.
  - rewrite map_err_ints in En. injection En as <-. rewrite py_join_json_repeat in Egn.
    injection Egn as <-. eexists. reflexivity.
Qed.

Lemma tmdb_item_genre_str (ymin ymax : Z) (fy : bool) (it : json) (m : movie) :
  tmdb_item gm py_int ymin ymax fy it = Some (Keep m) -> exists g, m_genre m = JStr g.
Proof.
  unfold tmdb_item. intros H.
  opt_as H rd Erd. opt_as H ys Eys. opt_as H sk Esk.
  destruct sk; cbn [obind] in H; [discriminate H|].
  opt_all H. injection H as <-. eexists. reflexivity.
Qed.


(** [search_tmdb] returns at most [max(n_results, 1)] movies: the loop
    checks [len(movies) >= n_results] only after appending, so even for
    [n_results <= 0] one movie can come back. *)
Theorem search_tmdb_length (api : pystr -> option json) (q : pystr) (n ymin ymax : Z)
    (fy : bool) :
  (Z.of_nat (length (search_tmdb gm py_int api q n ymin ymax fy)) <= Z.max 1 n)%Z.
Proof.
  unfold search_tmdb. destruct (let? data := api q in _) as [ms|] eqn:E; [|cbn [length]; lia].
  opt_as E d Ed. opt_as E results Er. opt_as E items Ei.
  exact (tmdb_loop_len _ _ _ _ _ _ _ (or_introl eq_refl) E).
Qed.

(** With [filter_year] on, every movie [search_tmdb] returns has a [str]
    year, and that year is "Unknown", or [int()] rejects it, or it lies
    within [year_min, year_max]. *)
Theorem search_tmdb_year_filter (api : pystr -> option json) (q : pystr) (n ymin ymax : Z)
    (m : movie) :
  In m (search_tmdb gm py_int api q n ymin ymax true) ->
  exists ys, m_year m = JStr ys /\
    (ys = lit "Unknown" \/ py_int ys = None \/
     exists y, py_int ys = Some y /\ (ymin <= y <= ymax)%Z).
Proof.
  intros Hm. destruct (search_tmdb_from _ _ _ _ _ _ _ Hm) as (d & rs & items & it & _ & _ & _ & _ & Ht).
  exact (tmdb_item_year _ _ _ _ Ht).
Qed.


(** In [app/main.py], [genre_map] has [str] keys while TMDB's [genre_ids]
    are integers: when every result item lists its genre ids as integers (or
    not at all), every genre string [search_tmdb] builds is "Unknown"
    repeated, joined by ", " (the empty string for no ids). *)
Theorem search_tmdb_int_genres (api : pystr -> option json) (q : pystr) (n ymin ymax : Z)
    (fy : bool) (d : list (pystr * json)) (items : list json) (m : movie) :
  api q = Some (JObj d) ->
  obj_get d (lit "results") = Some (JArr items) ->
  Forall (fun it => exists kvs zs, it = JObj kvs /\
    (obj_get kvs (lit "genre_ids") = None \/
     obj_get kvs (lit "genre_ids") = Some (JArr (map JInt zs)))) items ->
  In m (search_tmdb gm py_int api q n ymin ymax fy) ->
  exists k, m_genre m = JStr (py_join (lit ", ") (repeat (lit "Unknown") k)).
Proof.
  intros Ha Hr Hi Hm.
  destruct (search_tmdb_from _ _ _ _ _ _ _ Hm) as (d' & rs & items' & it & Ha' & Hr' & Hi' & Hin & Ht).
  rewrite Ha in Ha'. injection Ha' as <-. cbn [py_get] in Hr'. rewrite Hr in Hr'.
  injection Hr' as <-. cbn [py_iter] in Hi'. injection Hi' as <-.
  rewrite Forall_forall in Hi. destruct (Hi it Hin) as (kvs & zs & -> & Hg).
  exact (tmdb_item_int_genres _ _ _ _ _ _ Hg Ht).
Qed.

End tmdb.

(** ** Hybrid search *)

Lemma map_err_fwd {A B} (f : A -> option B) (l : list A) (l' : list B) (x : A) :
  map_err f l = Some l' -> In x l -> exists y, In y l' /\ f x = Some y.
Proof.
  revert l'. induction l as [|x0 l IH]; intros l' H Hx; [destruct Hx|]. cbn [map_err] in H.
  opt_as H y Ey. opt_as H ys Eys. injection H as <-. destruct Hx as [<-|Hx].
  - exists y. split; [left; reflexivity|exact Ey].
  - destruct (IH ys eq_refl Hx) as [y' [Hy Hf]]. exists y'. split; [right; exact Hy|exact Hf].
Qed.

Lemma str_mem_in (k : pystr) (seen : list pystr) : str_mem k seen = true -> In k seen.
Proof.
  unfold str_mem. intros H. apply existsb_exists in H as [x [Hx Hk]].
  apply str_eqb_true in Hk. subst x. exact Hx.
Qed.

Lemma str_mem_notin (k : pystr) (seen : list pystr) : str_mem k seen = false -> ~ In k seen.
Proof.
  unfold str_mem. intros H Hin.
  assert (Ht : existsb (str_eqb k) seen = true) by (apply existsb_exists; exists k; split;
    [exact Hin|apply str_eqb_refl']).
  congruence.
Qed.

Lemma src_tmdb_tmdb : str_mem src_tmdb [src_tmdb; src_both] = true.
Proof. reflexivity. Qed.

Lemma src_tmdb_local : str_mem src_tmdb [src_local; src_both] = false.
Proof. reflexivity. Qed.

Lemma resolve_field_title (gm : pystr -> option json) (m m' : movie) :
  resolve_genre_field gm m = Some m' -> m_title m' = m_title m.
Proof. unfold resolve_genre_field. intros H. opt_as H g Eg. injection H as <-. reflexivity. Qed.

Lemma exists_forall2 {A B} (R : A -> B -> Prop) (P : A -> Prop) (Q : B -> Prop)
    (l : list A) (l' : list B) :
  Forall2 R l l' -> (forall x y, R x y -> (P x <-> Q y)) -> (Exists P l <-> Exists Q l').
Proof.
  intros H HR. induction H as [|x y l l' Hxy _ IH]; [split; intros Hx; inversion Hx|].
  rewrite !Exists_cons, (HR x y Hxy), IH. reflexivity.
Qed.

Section hybrid.
Context {U : UnicodeDB}.

(** The key the deduplication of [hybrid_search] uses. *)
Definition title_lower (m : movie) : pystr :=
  match m_title m with JStr t => py_lower t | _ => [] end.

Lemma dedup_spec (seen : list pystr) (l u : list movie) :
  dedup_titles seen l = Some u ->
  incl u l /\ Forall (fun m => exists t, m_title m = JStr t) u /\ NoDup (map title_lower u) /\
  Forall (fun m => ~ In (title_lower m) seen) u /\
  (forall m, In m l -> In (title_lower m) seen \/ In (title_lower m) (map title_lower u)).
Proof.
  revert seen u. induction l as [|m l IH]; intros seen u H; cbn [dedup_titles] in H.
  - injection H as <-. split; [intros x []|]. split; [constructor|]. split; [constructor|].
    split; [constructor|]. intros x [].
  - destruct (m_title m) as [| | | |t| |] eqn:Et; try discriminate H.
    assert (Hk : title_lower m = py_lower t) by (unfold title_lower; rewrite Et; reflexivity).
    destruct (str_mem (py_lower t) seen) eqn:Em.
    + destruct (IH _ _ H) as (Hinc & Hs & Hnd & Hns & Hc).
      split; [intros x Hx; right; apply Hinc; exact Hx|]. split; [exact Hs|].
      split; [exact Hnd|]. split; [exact Hns|].
      intros x [<-|Hx]; [left; rewrite Hk; apply str_mem_in; exact Em|exact (Hc x Hx)].
    + opt_as H u' Eu. injection H as <-. destruct (IH _ _ Eu) as (Hinc & Hs & Hnd & Hns & Hc).
      split; [intros x [<-|Hx]; [left; reflexivity|right; apply Hinc; exact Hx]|].
      split; [constructor; [exists t; exact Et|exact Hs]|].
      split.
      { cbn [map]. constructor; [|exact Hnd]. intros Hin. rewrite Hk in Hin.
        apply in_map_iff in Hin as (x & Hx & Hxu). rewrite Forall_forall in Hns.
        apply (Hns x Hxu). rewrite Hx. left. reflexivity. }
      split.
      { constructor; [rewrite Hk; apply str_mem_notin; exact Em|].
        eapply Forall_impl; [|exact Hns]. intros x Hx Hin. apply Hx. right. exact Hin. }
      intros x [<-|Hx]; [right; left; reflexivity|].
      destruct (Hc x Hx) as [[Hx'|Hx']|Hx'].
      * right. left. rewrite Hk. exact Hx'.
      * left. exact Hx'.
      * right. right. exact Hx'.
Qed.

Lemma dedup_none (seen : list pystr) (l : list movie) :
  dedup_titles seen l = None <-> Exists (fun m => forall t, m_title m <> JStr t) l.
Proof.
  revert seen. induction l as [|m l IH]; intros seen; cbn [dedup_titles].
  - split; [discriminate|intros H; inversion H].
  - destruct (m_title m) as [| | | |t| |] eqn:Et;
      try (split; [intros _; apply Exists_cons_hd; intros t0; rewrite Et; discriminate
                  |reflexivity]).
    rewrite Exists_cons.
    assert (Hn : ~ forall t0, m_title m <> JStr t0) by (intros Hn; exact (Hn t Et)).
    destruct (str_mem (py_lower t) seen).
    + rewrite IH. tauto.
    + destruct (dedup_titles (py_lower t :: seen) l) eqn:E; cbn [obind].
      * split; [discriminate|]. intros [H'|H']; [contradiction|].
        apply (IH (py_lower t :: seen)) in H'. congruence.
      * split; [intros _; right; apply (IH (py_lower t :: seen)); exact E|reflexivity].
Qed.

Context (gm : pystr -> option json) (py_int : pystr -> option Z).

Lemma resolve_genres_str (s : pystr) :
  (forall k v, gm k = Some v -> exists t, v = JStr t) -> exists r, resolve_genres gm s = Some r.
Proof.
  intros Hgm. unfold resolve_genres.
  destruct (is_empty s || str_eqb s (lit "Unknown")); [eexists; reflexivity|].
  cbv zeta. unfold py_join_json.
  destruct (map_err_forall2 json_str
              (map (fun gid => dict_get gm gid (JStr gid))
                 (map py_strip (split_on (fun c => c =? 44) s)))) as [ss [E _]].
  { intros v Hv. apply in_map_iff in Hv as (gid & <- & _). unfold dict_get.
    destruct (gm gid) as [v|] eqn:Eg; [destruct (Hgm _ _ Eg) as [t ->]|]; discriminate. }
  rewrite E. eexists. reflexivity.
Qed.

(** Whatever sources it combines, a result of [hybrid_search] has [str]
    titles that are pairwise distinct once lowercased, and for
    [n_results >= 0] at most [n_results] movies. *)
Theorem hybrid_search_unique (api : pystr -> option json)
    (local : pystr -> Z -> Z -> Z -> bool -> option (list movie)) (q : pystr) (n : Z)
    (source : pystr) (ymin ymax : Z) (fy : bool) (r : list movie) :
  hybrid_search gm py_int api local q n source ymin ymax fy = Some r ->
  Forall (fun m => exists t, m_title m = JStr t) r /\ NoDup (map title_lower r) /\
  ((0 <= n)%Z -> (Z.of_nat (length r) <= n)%Z).
Proof.
  unfold hybrid_search. intros H. opt_as H tm Etm. opt_as H lm Elm. opt_as H u Eu.
  injection H as <-. destruct (dedup_spec _ _ _ Eu) as (_ & Hs & Hnd & _ & _).
  destruct (py_take_firstn u n) as [k [Ek Hk]]. rewrite Ek.
  split; [|split].
  - rewrite <- (firstn_skipn k u) in Hs. apply Forall_app in Hs. exact (proj1 Hs).
  - apply nodup_map_firstn. exact Hnd.
  - intros Hn. rewrite (Hk Hn), length_firstn. lia.
Qed.

(** [hybrid_search] loses no title but to truncation: when it returns fewer
    than [n_results] movies, every movie of the sources it asked has one in
    the result with the same lowercased title. *)
Theorem hybrid_search_complete (api : pystr -> option json)
    (local : pystr -> Z -> Z -> Z -> bool -> option (list movie)) (q : pystr) (n : Z)
    (source : pystr) (ymin ymax : Z) (fy : bool) (r : list movie) :
  hybrid_search gm py_int api local q n source ymin ymax fy = Some r ->
  (Z.of_nat (length r) < n)%Z ->
  (str_mem source [src_tmdb; src_both] = true ->
   forall m, In m (search_tmdb gm py_int api q n ymin ymax fy) ->
   exists m', In m' r /\ title_lower m' = title_lower m) /\
  (forall lm, str_mem source [src_local; src_both] = true -> local q n ymin ymax fy = Some lm ->
   forall m, In m lm -> exists m', In m' r /\ title_lower m' = title_lower m).
Proof.
  unfold hybrid_search. intros H Hlen. opt_as H tm Etm. opt_as H lm Elm. opt_as H u Eu.
  injection H as <-. destruct (dedup_spec _ _ _ Eu) as (_ & _ & _ & _ & Hc).
  destruct (py_take_firstn u n) as [k [Ek Hk]]. rewrite Ek in Hlen |- *.
  assert (Hnn : (0 <= n)%Z) by lia.
  specialize (Hk Hnn). subst k. rewrite firstn_short by lia.
  assert (Hfound : forall m, In m (tm ++ lm) -> exists m', In m' u /\ title_lower m' = title_lower m).
  { intros m Hm. destruct (Hc m Hm) as [[]|Hin]. apply in_map_iff in Hin as (m' & Hm' & Hu).
    exists m'. split; assumption. }
  split.
  - intros Hs m Hm. rewrite Hs in Etm. destruct (map_err_fwd _ _ _ _ Etm Hm) as [m1 [Hm1 Hr]].
    destruct (Hfound m1 (in_or_app _ _ _ (or_introl Hm1))) as [m' [Hm' Ht]].
    exists m'. split; [exact Hm'|]. rewrite Ht. unfold title_lower.
    rewrite (resolve_field_title _ _ _ Hr). reflexivity.
  - intros lm0 Hs Hl m Hm. rewrite Hs, Hl in Elm. injection Elm as <-.
    exact (Hfound m (in_or_app _ _ _ (or_intror Hm))).
Qed.

(** With the TMDB source and a [genre_map] whose names are all [str] (as
    TMDB sends them), [hybrid_search] raises (the [AttributeError] of
    [m['title'].lower()], which nothing catches) exactly when one of the
    movies [search_tmdb] returned has a title that is not a [str], such as
    an item whose "title" is [null] or a number. *)
Theorem hybrid_search_tmdb_title (api : pystr -> option json)
    (local : pystr -> Z -> Z -> Z -> bool -> option (list movie)) (q : pystr) (n ymin ymax : Z)
    (fy : bool) :
  (forall k v, gm k = Some v -> exists t, v = JStr t) ->
  hybrid_search gm py_int api local q n src_tmdb ymin ymax fy = None <->
  Exists (fun m => forall t, m_title m <> JStr t) (search_tmdb gm py_int api q n ymin ymax fy).
Proof.
  intros Hgm. unfold hybrid_search. rewrite src_tmdb_tmdb, src_tmdb_local.
  destruct (map_err_forall2 (resolve_genre_field gm) (search_tmdb gm py_int api q n ymin ymax fy))
    as [tm [Etm F]].
  { intros m Hm. destruct (search_tmdb_from _ _ _ _ _ _ _ _ _ Hm) as (_ & _ & _ & it & _ & _ & _ & _ & Ht).
    destruct (tmdb_item_genre_str _ _ _ _ _ _ _ Ht) as [g Hg].
    unfold resolve_genre_field. rewrite Hg. destruct (resolve_genres_str g Hgm) as [r Er].
    rewrite Er. discriminate. }
  rewrite Etm. cbn [obind]. rewrite app_nil_r.
  rewrite (exists_forall2 _ _ (fun m => forall t, m_title m <> JStr t) _ _ F).
  2:{ intros x y Hxy. rewrite (resolve_field_title _ _ _ Hxy). reflexivity. }
  rewrite <- (dedup_none []). destruct (dedup_titles [] tm); cbn [obind].
  - split; discriminate.
  - split; reflexivity.
Qed.

(** With the TMDB source in [app/main.py]: when every result item lists
    its genre ids as integers (or not at all) and "Unknown" is no key of
    [genre_map], every movie [hybrid_search] returns has the genre
    "Unknown", or "Unknown" repeated and joined by ", ": no genre name is
    ever resolved. *)
Theorem hybrid_search_tmdb_genres (api : pystr -> option json)
    (local : pystr -> Z -> Z -> Z -> bool -> option (list movie)) (q : pystr) (n ymin ymax : Z)
    (fy : bool) (d : list (pystr * json)) (items : list json) (r : list movie) :
  gm (lit "Unknown") = None ->
  api q = Some (JObj d) ->
  obj_get d (lit "results") = Some (JArr items) ->
  Forall (fun it => exists kvs zs, it = JObj kvs /\
    (obj_get kvs (lit "genre_ids") = None \/
     obj_get kvs (lit "genre_ids") = Some (JArr (map JInt zs)))) items ->
  hybrid_search gm py_int api local q n src_tmdb ymin ymax fy = Some r ->
  forall m, In m r -> exists k, m_genre m = JStr (py_join (lit ", ") (repeat (lit "Unknown") (S k))).
Proof.
  intros Hgm Ha Hr Hi H m Hm. unfold hybrid_search in H.
  rewrite src_tmdb_tmdb, src_tmdb_local in H.
  opt_as H tm Etm. cbn [obind] in H. opt_as H u Eu. injection H as <-.
  destruct (dedup_spec _ _ _ Eu) as (Hinc & _).
  destruct (py_take_firstn u n) as [k [Ek _]]. rewrite Ek in Hm.
  rewrite <- (firstn_skipn k u) in Hinc.
  assert (Hmu : In m (tm ++ [])) by (apply Hinc, in_or_app; left; exact Hm).
  rewrite app_nil_r in Hmu.
  destruct (map_err_in _ _ _ _ Etm Hmu) as [m0 [Hm0 Hres]].
  destruct (search_tmdb_from _ _ _ _ _ _ _ _ _ Hm0) as (d' & rs & items' & it & Ha' & Hr' & Hi' & Hin & Ht).
  rewrite Ha in Ha'. injection Ha' as <-. cbn [py_get] in Hr'. rewrite Hr in Hr'.
  injection Hr' as <-. cbn [py_iter] in Hi'. injection Hi' as <-.
  rewrite Forall_forall in Hi. destruct (Hi it Hin) as (kvs & zs & -> & Hg).
  destruct (tmdb_item_int_genres _ _ _ _ _ _ _ _ Hg Ht) as [j Hj].
  unfold resolve_genre_field in Hres. rewrite Hj in Hres. cbn [obind] in Hres.
  rewrite resolve_genres_join in Hres.
  2:{ apply Forall_forall. intros x Hx. apply repeat_spec in Hx. subst x.
      split; [reflexivity|]. split; [reflexivity|exact Hgm]. }
  cbn [obind] in Hres. injection Hres as <-. cbn [m_genre].
  destruct j as [|j].
  - exists O. reflexivity.
  - exists j. destruct j; reflexivity.
Qed.

End hybrid.

(** ** Sample responses *)

(** [int()] on strings of ASCII digits only. *)
Definition digits_int (s : pystr) : option Z :=
  match s with
  | [] => None
  | _ => if forallb (fun c => (48 <=? c) && (c <=? 57)) s
         then Some (Z.of_N (fold_left (fun a c => a * 10 + (c - 48)) s 0)) else None
  end.

Definition item_heat : json :=
  JObj [(lit "title", JStr (lit "Heat")); (lit "release_date", JStr (lit "1995-12-15"));
        (lit "genre_ids", JArr [JInt 80; JInt 18])].

Definition item_metropolis : json :=
  JObj [(lit "title", JStr (lit "Metropolis")); (lit "release_date", JStr (lit "1927-01-10"));
        (lit "genre_ids", JArr [JInt 878])].

Definition item_untitled : json :=
  JObj [(lit "title", JNull); (lit "release_date", JStr (lit "2001-01-01"))].

Definition tmdb_api (items : list json) : pystr -> option json :=
  fun _ => Some (JObj [(lit "results", JArr items)]).

Definition no_movie : movie := mk_movie JNull JNull JNull JNull JNull None [].

Definition local_movies : list movie :=
  [mk_movie (JStr (lit "HEAT")) (JStr (lit "1995")) (JStr (lit "Crime")) (JStr []) (JStr (lit "N/A"))
     None src_local;
   mk_movie (JStr (lit "Alien")) (JStr (lit "1979")) (JStr (lit "Horror")) (JStr []) (JStr (lit "N/A"))
     None src_local].

Definition local_db : pystr -> Z -> Z -> Z -> bool -> option (list movie) :=
  fun _ _ _ _ _ => Some local_movies.

Definition no_genres : pystr -> option json := fun _ => None.

Definition both_result : list movie :=
  match @hybrid_search no_genres digits_int ascii_db (tmdb_api [item_heat; item_metropolis])
          local_db (lit "heat") 5 src_both 1900 2025 false with
  | Some r => r | None => [] end.

Definition tmdb_result : list movie :=
  match @hybrid_search no_genres digits_int ascii_db (tmdb_api [item_heat; item_metropolis])
          local_db (lit "heat") 5 src_tmdb 1900 2025 false with
  | Some r => r | None => [] end.

Lemma search_tmdb_year_filter_witness :
  In (hd no_movie (search_tmdb no_genres digits_int (tmdb_api [item_heat; item_metropolis])
                     (lit "heat") 5 1990 2025 true))
     (search_tmdb no_genres digits_int (tmdb_api [item_heat; item_metropolis])
        (lit "heat") 5 1990 2025 true) /\
  exists ys, m_year (hd no_movie (search_tmdb no_genres digits_int
                                   (tmdb_api [item_heat; item_metropolis]) (lit "heat") 5 1990 2025 true))
             = JStr ys /\
    (ys = lit "Unknown" \/ digits_int ys = None \/
     exists y, digits_int ys = Some y /\ (1990 <= y <= 2025)%Z).
Proof.
  assert (H : In (hd no_movie (search_tmdb no_genres digits_int (tmdb_api [item_heat; item_metropolis])
                     (lit "heat") 5 1990 2025 true))
     (search_tmdb no_genres digits_int (tmdb_api [item_heat; item_metropolis])
        (lit "heat") 5 1990 2025 true)) by (vm_compute; left; reflexivity).
  split; [exact H|]. exact (search_tmdb_year_filter no_genres digits_int _ _ _ _ _ _ H).
Defined.


Lemma item_int_genres :
  Forall (fun it => exists kvs zs, it = JObj kvs /\
    (obj_get kvs (lit "genre_ids") = None \/
     obj_get kvs (lit "genre_ids") = Some (JArr (map JInt zs)))) [item_heat; item_metropolis].
Proof.
  constructor; [|constructor; [|constructor]].
  - eexists _, [80%Z; 18%Z]. split; [reflexivity|right; vm_compute; reflexivity].
  - eexists _, [878%Z]. split; [reflexivity|right; vm_compute; reflexivity].
Qed.

Lemma search_tmdb_int_genres_witness :
  exists k, m_genre (hd no_movie (search_tmdb no_genres digits_int
                                   (tmdb_api [item_heat; item_metropolis]) (lit "heat") 5 1900 2025 false))
            = JStr (py_join (lit ", ") (repeat (lit "Unknown") k)).
Proof.
  apply (search_tmdb_int_genres no_genres digits_int (tmdb_api [item_heat; item_metropolis])
           (lit "heat") 5 1900 2025 false
           [(lit "results", JArr [item_heat; item_metropolis])] [item_heat; item_metropolis]).
  - reflexivity.
  - vm_compute. reflexivity.
  - exact item_int_genres.
  - vm_compute. left. reflexivity.
Defined.

Lemma hybrid_search_unique_witness :
  @hybrid_search no_genres digits_int ascii_db (tmdb_api [item_heat; item_metropolis])
    local_db (lit "heat") 5 src_both 1900 2025 false = Some both_result /\
  Forall (fun m => exists t, m_title m = JStr t) both_result /\
  NoDup (map (@title_lower ascii_db) both_result) /\
  ((0 <= 5)%Z -> (Z.of_nat (length both_result) <= 5)%Z).
Proof.
  assert (H : @hybrid_search no_genres digits_int ascii_db (tmdb_api [item_heat; item_metropolis])
    local_db (lit "heat") 5 src_both 1900 2025 false = Some both_result) by (vm_compute; reflexivity).
  split; [exact H|]. exact (@hybrid_search_unique ascii_db no_genres digits_int _ _ _ _ _ _ _ _ _ H).
Defined.

Lemma hybrid_search_complete_witness :
  @hybrid_search no_genres digits_int ascii_db (tmdb_api [item_heat; item_metropolis])
    local_db (lit "heat") 5 src_both 1900 2025 false = Some both_result /\
  (Z.of_nat (length both_result) < 5)%Z /\
  (str_mem src_both [src_tmdb; src_both] = true ->
   forall m, In m (search_tmdb no_genres digits_int (tmdb_api [item_heat; item_metropolis])
                     (lit "heat") 5 1900 2025 false) ->
   exists m', In m' both_result /\ @title_lower ascii_db m' = @title_lower ascii_db m) /\
  (forall lm, str_mem src_both [src_local; src_both] = true ->
   local_db (lit "heat") 5 1900 2025 false = Some lm ->
   forall m, In m lm -> exists m', In m' both_result /\ @title_lower ascii_db m' = @title_lower ascii_db m).
Proof.
  assert (H : @hybrid_search no_genres digits_int ascii_db (tmdb_api [item_heat; item_metropolis])
    local_db (lit "heat") 5 src_both 1900 2025 false = Some both_result) by (vm_compute; reflexivity).
  assert (Hl : (Z.of_nat (length both_result) < 5)%Z) by (vm_compute; reflexivity).
  split; [exact H|]. split; [exact Hl|].
  exact (@hybrid_search_complete ascii_db no_genres digits_int _ _ _ _ _ _ _ _ _ H Hl).
Defined.

Lemma hybrid_search_tmdb_title_witness :
  (forall k v, no_genres k = Some v -> exists t, v = JStr t) /\
  @hybrid_search no_genres digits_int ascii_db (tmdb_api [item_heat; item_untitled])
    local_db (lit "heat") 5 src_tmdb 1900 2025 false = None.
Proof.
  assert (Hg : forall k v, no_genres k = Some v -> exists t, v = JStr t)
    by (intros k v H; discriminate H).
  split; [exact Hg|].
  apply (proj2 (@hybrid_search_tmdb_title ascii_db no_genres digits_int (tmdb_api [item_heat; item_untitled])
                  local_db (lit "heat") 5 1900 2025 false Hg)).
  vm_compute. apply Exists_cons_tl, Exists_cons_hd. intros t Ht. discriminate Ht.
Defined.

Lemma hybrid_search_tmdb_genres_witness :
  @hybrid_search no_genres digits_int ascii_db (tmdb_api [item_heat; item_metropolis])
    local_db (lit "heat") 5 src_tmdb 1900 2025 false = Some tmdb_result /\
  exists k, m_genre (hd no_movie tmdb_result)
            = JStr (py_join (lit ", ") (repeat (lit "Unknown") (S k))).
Proof.
  assert (H : @hybrid_search no_genres digits_int ascii_db (tmdb_api [item_heat; item_metropolis])
    local_db (lit "heat") 5 src_tmdb 1900 2025 false = Some tmdb_result) by (vm_compute; reflexivity).
  split; [exact H|].
  apply (@hybrid_search_tmdb_genres ascii_db no_genres digits_int (tmdb_api [item_heat; item_metropolis])
           local_db (lit "heat") 5 1900 2025 false
           [(lit "results", JArr [item_heat; item_metropolis])] [item_heat; item_metropolis]
           tmdb_result eq_refl eq_refl).
  - vm_compute. reflexivity.
  - exact item_int_genres.
  - exact H.
  - vm_compute. left. reflexivity.
Defined.

End Extras.
